(** * SystemVariableManager: the apply / export core of [main.go]

    A shallow embedding of the environment-variable manager: the
    configuration model, the file-type guard, the registry applier, the
    broadcast step and the export path, followed by the properties the
    specification states about them.

    Go strings are byte sequences; they are modelled as [string] (a
    sequence of 8-bit [ascii]).  One user action runs at a time, so a
    handler is modelled as a sequential computation over the registry
    that records, in order, every call it makes to the outside world. *)

From Stdlib Require Import Ascii String.
From stdpp Require Import base strings list gmap.

Local Open Scope string_scope.
Local Open Scope list_scope.

(** ** The parts of Go's [strings], [os] and [path/filepath] in use *)

Module GoStrings.

Definition bytes (s : string) : list ascii := list_ascii_of_string s.
Definition str (l : list ascii) : string := string_of_list_ascii l.

(** [strings.ToLower] on one byte.  Only 'A'..'Z' change.  A rune
    outside ASCII is encoded by bytes above 127, which are left alone
    here: its lower-case form is never one of the bytes of ".yaml" or
    ".yml", the only strings a lowered path is compared with. *)
Definition lowerByte (c : ascii) : ascii :=
  let n := nat_of_ascii c in
  if (65 <=? n)%nat && (n <=? 90)%nat then ascii_of_nat (n + 32) else c.

Definition ToLower (s : string) : string := str (map lowerByte (bytes s)).

(** [strings.HasSuffix]:
    [len(s) >= len(suffix) && s[len(s)-len(suffix):] == suffix]. *)
Definition HasSuffix (s suffix : string) : bool :=
  (String.length suffix <=? String.length s)%nat
  && bool_decide (drop (String.length s - String.length suffix) (bytes s) = bytes suffix).

(** [os.IsPathSeparator] on Windows. *)
Definition IsPathSeparator (c : ascii) : bool :=
  Ascii.eqb c "\" || Ascii.eqb c "/".

(** The loop of [filepath.Ext]: [i] walks down from the last byte until
    a separator; the first '.' met ends the walk and the extension is
    the path from there.  [visited] holds the bytes already walked
    over, [todo] the bytes before [i], last one first. *)
Fixpoint ext_walk (todo visited : list ascii) : list ascii :=
  match todo with
  | [] => []
  | c :: todo' =>
      if IsPathSeparator c then []
      else if Ascii.eqb c "." then c :: visited
      else ext_walk todo' (c :: visited)
  end.

Definition Ext (path : string) : string := str (ext_walk (rev (bytes path)) []).

End GoStrings.
Import GoStrings.

(** ** File-type guard *)

(** [isValidYAMLFile] checks if the provided file path has a valid YAML
    extension. *)
Definition isValidYAMLFile (filePath : string) : bool :=
  let ext := ToLower (Ext filePath) in
  String.eqb ext ".yaml" || String.eqb ext ".yml".

(** ** Configuration model *)

(** Go's [Variable]: a single environment variable with its operation
    type ([Variable] is a reserved word here, hence the name). *)
Record EnvVar := {
  Name : string;       (* environment variable name *)
  Value : string;      (* environment variable value *)
  Operation : string   (* "set" to create/update, "delete" to remove *)
}.

(** The structure of a YAML configuration file.  A nil slice and an
    empty one are the same list. *)
Record Config := {
  UserVariables : list EnvVar;    (* variables for current user only *)
  SystemVariables : list EnvVar   (* system-wide variables (requires admin) *)
}.

Definition HWND_BROADCAST : Z := 0xffff.
Definition WM_SETTINGCHANGE : Z := 0x001A.

(** ** The host: registry, files, YAML library, dialogs, user32 *)

(** A Go [error]: its message and what [os.IsNotExist] answers on it. *)
Record error := {
  Error : string;
  IsNotExist : bool
}.

Definition nl : string := String (ascii_of_nat 10) "".

(** [fmt.Errorf(prefix + "%w", err)] and [fmt.Errorf(prefix + "%v", err)]:
    a new error whose text ends in the cause's text.  [os.IsNotExist]
    does not look through such a wrapper. *)
Definition Errorf (prefix : string) (cause : error) : error :=
  {| Error := prefix +:+ Error cause; IsNotExist := false |}.

Definition errors_New (text : string) : error :=
  {| Error := text; IsNotExist := false |}.

(** [registry.ErrNotExist] (ERROR_FILE_NOT_FOUND). *)
Definition ErrNotExist : error :=
  {| Error := "The system cannot find the file specified."; IsNotExist := true |}.

(** The two predefined keys passed to the registry functions.  No other
    key reaches [applyVariables] or [readVariablesFromRegistry], so the
    [default] arm of their [switch hive] is not modelled. *)
Inductive Hive := CURRENT_USER | LOCAL_MACHINE.

Inductive Access := SET_VALUE | READ.

Global Instance Hive_eq_dec : EqDecision Hive.
Proof. solve_decision. Defined.

(** What the outside world answers.  [None] / [inr] is success.  The
    answers depend on the arguments of a call only. *)
Record Host := {
  (* registry.OpenKey(hive, path, access) *)
  open_key : Hive → Access → option error;
  (* Key.SetStringValue(name, value): the store refuses the write *)
  set_string_value : Hive → string → string → option error;
  (* Key.DeleteValue(name) on a value the key holds: the store refuses *)
  delete_value : Hive → string → option error;
  (* Key.ReadValueNames(-1) *)
  read_value_names : Hive → option error;
  (* Key.GetStringValue(name) on a value the key holds, e.g. a value
     that is not a string *)
  get_string_value : Hive → string → option error;
  (* ioutil.ReadFile(path) *)
  read_file : string → error + string;
  (* yaml.Unmarshal(data, &config) *)
  yaml_Unmarshal : string → error + Config;
  (* yaml.Marshal(&config) *)
  yaml_Marshal : Config → error + string;
  (* ioutil.WriteFile(path, data, 0644) *)
  write_file : string → string → option error;
  (* SendMessageTimeoutW returned 0, with this error *)
  send_message_timeout : option error;
  (* sqweekdialog.File().Filter(...).Save() *)
  save_dialog : error + string
}.

(** The persistent store: the values under [HKCU\Environment] and under
    [HKLM\SYSTEM\CurrentControlSet\Control\Session Manager\Environment].
    The program pairs each hive with one fixed subkey, so the hive
    selects the location.  Value names are compared as exact strings. *)
Record Registry := {
  user_env : gmap string string;
  system_env : gmap string string
}.

Definition values (reg : Registry) (h : Hive) : gmap string string :=
  match h with CURRENT_USER => user_env reg | LOCAL_MACHINE => system_env reg end.

Definition with_values (reg : Registry) (h : Hive) (m : gmap string string) : Registry :=
  match h with
  | CURRENT_USER => {| user_env := m; system_env := system_env reg |}
  | LOCAL_MACHINE => {| user_env := user_env reg; system_env := m |}
  end.

(** Lines the program writes to standard output, one constructor per
    [fmt.Println] / [fmt.Printf] statement; [text] is what is written. *)
Inductive Line :=
| ApplyingUser
| ApplyingSystem
| Broadcasting
| SetFailed (name value : string) (err : error)
| SetOk (name value : string)
| AlreadyAbsent (name : string)
| DeleteFailed (name : string) (err : error)
| DeleteOk (name : string)
| UnknownOperation (operation name : string)
| SkippingSystemExport
| ReadWarning (name : string) (err : error).

Definition text (l : Line) : string :=
  match l with
  | ApplyingUser => "Applying user environment variables..." +:+ nl
  | ApplyingSystem => "Applying system environment variables..." +:+ nl
  | Broadcasting => "Broadcasting WM_SETTINGCHANGE message..." +:+ nl
  | SetFailed n v e => "  Failed to set " +:+ n +:+ "=" +:+ v +:+ ": " +:+ Error e +:+ nl
  | SetOk n v => "  Successfully set " +:+ n +:+ "=" +:+ v +:+ nl
  | AlreadyAbsent n => "  Variable " +:+ n +:+ " already deleted or did not exist." +:+ nl
  | DeleteFailed n e => "  Failed to delete " +:+ n +:+ ": " +:+ Error e +:+ nl
  | DeleteOk n => "  Successfully deleted " +:+ n +:+ nl
  | UnknownOperation op n =>
      "  Unknown operation '" +:+ op +:+ "' for variable " +:+ n +:+ ". Skipping." +:+ nl
  | SkippingSystemExport =>
      "Skipping system environment variable export: Application not running as Administrator." +:+ nl
  | ReadWarning n e => "  Warning: Could not read value for " +:+ n +:+ ": " +:+ Error e +:+ nl
  end.

(** Every call a handler makes to the outside world, in program order. *)
Inductive Event :=
| Stdout (l : Line)
| SetText (status : string)                    (* statusLabel.SetText *)
| Refresh                                      (* statusLabel.Refresh *)
| ShowError (err : error)                      (* dialog.ShowError *)
| ShowInformation (title message : string)     (* dialog.ShowInformation *)
| PreviewWindow (label : string)               (* the preview window's label *)
| ReadFile (path : string)
| WriteFile (path data : string)
| SaveDialog
| RegOpenKey (h : Hive) (path : string) (access : Access)
| RegCloseKey (h : Hive)
| RegSetValue (h : Hive) (name value : string)
| RegDeleteValue (h : Hive) (name : string)
| RegEnumValues (h : Hive)
| RegQueryValue (h : Hive) (name : string)
| SendMessageTimeoutW (hwnd msg : Z) (lParam : string) (timeout : Z).

(** A computation reads and updates the registry, logs its calls and
    returns a value. *)
Definition IO (A : Type) : Type := Registry → A * Registry * list Event.

Global Instance IO_ret : MRet IO := λ A a reg, (a, reg, []).

Global Instance IO_bind : MBind IO := λ A B k m reg,
  let '(a, reg1, t1) := m reg in
  let '(b, reg2, t2) := k a reg1 in
  (b, reg2, t1 ++ t2).

Definition emit (e : Event) : IO unit := λ reg, (tt, reg, [e]).

Definition result {A} (r : A * Registry * list Event) : A := r.1.1.
Definition store {A} (r : A * Registry * list Event) : Registry := r.1.2.
Definition trace {A} (r : A * Registry * list Event) : list Event := r.2.

(** The statements of a [for _, v := range xs] loop, one entry after
    the other. *)
Fixpoint forEach {A} (xs : list A) (body : A → IO unit) : IO unit :=
  match xs with
  | [] => mret tt
  | x :: xs' => body x ;; forEach xs' body
  end.

(** ** Store adapter: [golang.org/x/sys/windows/registry] *)

Module registry.

(** An open key; it acts on the values of the location it was opened
    at. *)
Definition Key := Hive.

Definition OpenKey (host : Host) (h : Hive) (path : string) (access : Access)
  : IO (error + Key) := λ reg,
  (match open_key host h access with Some err => inl err | None => inr h end,
   reg, [RegOpenKey h path access]).

Definition Close (k : Key) : IO unit := emit (RegCloseKey k).

(** Writes or overwrites [name]; takes effect at once. *)
Definition SetStringValue (host : Host) (k : Key) (name value : string)
  : IO (option error) := λ reg,
  match set_string_value host k name value with
  | Some err => (Some err, reg, [RegSetValue k name value])
  | None => (None, with_values reg k (<[name := value]> (values reg k)),
             [RegSetValue k name value])
  end.

(** Removes [name].  On a name the key does not hold the answer is
    [ErrNotExist], as RegDeleteValueW gives ERROR_FILE_NOT_FOUND. *)
Definition DeleteValue (host : Host) (k : Key) (name : string)
  : IO (option error) := λ reg,
  match values reg k !! name with
  | None => (Some ErrNotExist, reg, [RegDeleteValue k name])
  | Some _ =>
      match delete_value host k name with
      | Some err => (Some err, reg, [RegDeleteValue k name])
      | None => (None, with_values reg k (delete name (values reg k)),
                 [RegDeleteValue k name])
      end
  end.

Definition ReadValueNames (host : Host) (k : Key) : IO (error + list string) := λ reg,
  (match read_value_names host k with
   | Some err => inl err
   | None => inr (map_to_list (values reg k)).*1
   end, reg, [RegEnumValues k]).

Definition GetStringValue (host : Host) (k : Key) (name : string)
  : IO (error + string) := λ reg,
  (match values reg k !! name with
   | None => inl ErrNotExist
   | Some value =>
       match get_string_value host k name with
       | Some err => inl err
       | None => inr value
       end
   end, reg, [RegQueryValue k name]).

End registry.

Definition hiveName (hive : Hive) : string :=
  match hive with
  | CURRENT_USER => "HKEY_CURRENT_USER"
  | LOCAL_MACHINE => "HKEY_LOCAL_MACHINE"
  end.

Definition userPath : string := "Environment".
Definition systemPath : string :=
  "SYSTEM\CurrentControlSet\Control\Session Manager\Environment".

(** ** Applier *)

(** The body of the loop of [applyVariables]: one variable according
    to its operation type. *)
Definition applyVariable (host : Host) (key : registry.Key) (v : EnvVar) : IO unit :=
  if String.eqb (Operation v) "set" then
    err ← registry.SetStringValue host key (Name v) (Value v);
    match err with
    | Some err => emit (Stdout (SetFailed (Name v) (Value v) err))
    | None => emit (Stdout (SetOk (Name v) (Value v)))
    end
  else if String.eqb (Operation v) "delete" then
    err ← registry.DeleteValue host key (Name v);
    match err with
    | Some err =>
        if IsNotExist err then emit (Stdout (AlreadyAbsent (Name v)))
        else emit (Stdout (DeleteFailed (Name v) err))
    | None => emit (Stdout (DeleteOk (Name v)))
    end
  else
    emit (Stdout (UnknownOperation (Operation v) (Name v))).

(** [applyVariables] processes a list of environment variables and
    applies them to the Windows registry.  The deferred [key.Close()]
    runs when the function returns. *)
Definition applyVariables (host : Host) (variables : list EnvVar)
    (hive : Hive) (subkeyPath : string) : IO (option error) :=
  key ← registry.OpenKey host hive subkeyPath SET_VALUE;
  match key with
  | inl err =>
      mret (Some (Errorf ("failed to open registry key " +:+ hiveName hive +:+ "\"
                          +:+ subkeyPath +:+ ": ") err))
  | inr key =>
      forEach variables (applyVariable host key);;
      registry.Close key;;
      mret None
  end.

(** ** Notifier *)

(** [broadcastSettingChange] notifies all Windows applications that
    environment variables have changed. *)
Definition broadcastSettingChange (host : Host) : IO (option error) :=
  emit (SendMessageTimeoutW HWND_BROADCAST WM_SETTINGCHANGE "Environment" 5000);;
  match send_message_timeout host with
  | Some err => mret (Some (Errorf "SendMessageTimeoutW failed: " err))
  | None => mret None
  end.

(** ** The "Apply Variables" action *)

Definition ioutil_ReadFile (host : Host) (path : string) : IO (error + string) := λ reg,
  (read_file host path, reg, [ReadFile path]).

Definition ioutil_WriteFile (host : Host) (path data : string) : IO (option error) := λ reg,
  (write_file host path data, reg, [WriteFile path data]).

(** The second half of the [applyEnvVars] closure, from "Apply user
    environment variables" to the end: both scopes, then the broadcast. *)
Definition applyConfig (host : Host) (isAdmin : bool) (config : Config) : IO unit :=
  (* Apply user environment variables (always accessible) *)
  emit (Stdout ApplyingUser);;
  err ← applyVariables host (UserVariables config) CURRENT_USER userPath;
  match err with
  | Some err =>
      emit (SetText ("Error applying user variables: " +:+ Error err));;
      emit (ShowError (Errorf "error applying user variables: " err));;
      emit Refresh
  | None =>
      (* Apply system environment variables (requires administrator privileges);
         [proceed] is false on the paths that end in [return] *)
      proceed ←
        (if isAdmin then
           emit (Stdout ApplyingSystem);;
           err ← applyVariables host (SystemVariables config) LOCAL_MACHINE systemPath;
           match err with
           | Some err =>
               emit (SetText ("Error applying system variables: " +:+ Error err));;
               emit (ShowError (Errorf "error applying system variables: " err));;
               emit Refresh;;
               mret false
           | None => mret true
           end
         else if (0 <? length (SystemVariables config))%nat then
           (* system variables were skipped due to insufficient privileges *)
           emit (SetText "System variables were ignored. Relaunch as admin to apply them.");;
           emit (ShowInformation "Admin Required"
                   "To apply system environment variables, please relaunch the app as Administrator.");;
           emit Refresh;;
           mret false
         else mret true);
      if proceed : bool then
        (* Broadcast WM_SETTINGCHANGE to notify other applications *)
        emit (Stdout Broadcasting);;
        err ← broadcastSettingChange host;
        match err with
        | Some err =>
            emit (SetText ("Error broadcasting changes: " +:+ Error err));;
            emit (ShowError (Errorf "error broadcasting WM_SETTINGCHANGE: " err));;
            emit Refresh
        | None =>
            emit (SetText "Environment variables applied successfully. Some applications may need to be restarted.");;
            emit (ShowInformation "Success"
                    ("Environment variables applied successfully." +:+ nl +:+ nl +:+
                     "Please note: Some applications (like Explorer, Command Prompt, PowerShell) may need to be restarted to reflect the changes."));;
            emit Refresh
        end
      else mret tt
  end.

(** Handler function to apply environment variables from the selected
    YAML file.  The goroutine is the only one at work on the registry,
    so its statements follow the handler's in sequence. *)
Definition applyEnvVars (host : Host) (isAdmin : bool) (selectedFilePath : string) : IO unit :=
  if String.eqb selectedFilePath "" then
    emit (ShowInformation "Error" "Please select a YAML configuration file first.")
  else if negb (isValidYAMLFile selectedFilePath) then
    (* Validate file extension before processing *)
    emit (ShowError (errors_New
      "invalid file type: please select a valid YAML file (.yaml or .yml extension)"))
  else
    emit (SetText "Applying variables... Please wait.");;
    emit Refresh;;
    yamlFile ← ioutil_ReadFile host selectedFilePath;
    match yamlFile with
    | inl err =>
        emit (SetText ("Error reading YAML file: " +:+ Error err));;
        emit (ShowError (Errorf ("error reading YAML file " +:+ selectedFilePath +:+ ": ") err));;
        emit Refresh
    | inr yamlFile =>
        match yaml_Unmarshal host yamlFile with
        | inl err =>
            emit (SetText ("Error unmarshaling YAML: " +:+ Error err));;
            emit (ShowError (Errorf "error unmarshaling YAML: " err));;
            emit Refresh
        | inr config => applyConfig host isAdmin config
        end
    end.

(** ** The "Preview Changes" action *)

Definition previewEntry (prefix : string) (v : EnvVar) : string :=
  if String.eqb (Operation v) "set" then
    prefix +:+ "SET: " +:+ Name v +:+ " = " +:+ Value v
  else if String.eqb (Operation v) "delete" then
    prefix +:+ "DELETE: " +:+ Name v
  else
    prefix +:+ "UNKNOWN OPERATION (" +:+ Operation v +:+ "): " +:+ Name v +:+ " = " +:+ Value v.

(** The lines [showPreviewWindow] collects in [content]. *)
Definition previewContent (config : Config) (isAdmin : bool) : list string :=
  (if (0 <? length (UserVariables config))%nat then
     ["USER ENVIRONMENT VARIABLES:"; ""]
     ++ map (previewEntry "  ") (UserVariables config)
     ++ [""]
   else [])
  ++ (if (0 <? length (SystemVariables config))%nat then
        ["SYSTEM ENVIRONMENT VARIABLES:"]
        ++ (if negb isAdmin then
              ["  ⚠️  WARNING: Running as standard user - system variables will be IGNORED"]
            else [])
        ++ [""]
        ++ map (previewEntry (if negb isAdmin then "  [IGNORED] " else "  "))
               (SystemVariables config)
        ++ [""]
      else [])
  ++ (if (length (UserVariables config) =? 0)%nat && (length (SystemVariables config) =? 0)%nat
      then ["No environment variables found in the configuration file."]
      else [])
  ++ [""; "Note: After applying changes, a WM_SETTINGCHANGE message will be";
      "broadcast to notify other applications of the environment changes."].

(** [showPreviewWindow] displays all pending environment variable
    changes: a label holding the lines joined by newlines. *)
Definition showPreviewWindow (config : Config) (isAdmin : bool) : IO unit :=
  emit (PreviewWindow (String.concat nl (previewContent config isAdmin))).

(** Handler function to preview changes without applying them. *)
Definition previewChanges (host : Host) (isAdmin : bool) (selectedFilePath : string) : IO unit :=
  if String.eqb selectedFilePath "" then
    emit (ShowInformation "Error" "Please select a YAML configuration file first.")
  else if negb (isValidYAMLFile selectedFilePath) then
    emit (ShowError (errors_New
      "invalid file type: please select a valid YAML file (.yaml or .yml extension)"))
  else
    yamlFile ← ioutil_ReadFile host selectedFilePath;
    match yamlFile with
    | inl err =>
        emit (ShowError (Errorf ("error reading YAML file " +:+ selectedFilePath +:+ ": ") err))
    | inr yamlFile =>
        match yaml_Unmarshal host yamlFile with
        | inl err => emit (ShowError (Errorf "error unmarshaling YAML: " err))
        | inr config => showPreviewWindow config isAdmin
        end
    end.

(** ** The "Export Variables to YAML" action *)

(** The loop of [readVariablesFromRegistry]: a value that cannot be
    read is reported and left out. *)
Fixpoint readValues (host : Host) (key : registry.Key) (names : list string)
    (variables : list EnvVar) : IO (list EnvVar) :=
  match names with
  | [] => mret variables
  | name :: names' =>
      value ← registry.GetStringValue host key name;
      match value with
      | inl err =>
          emit (Stdout (ReadWarning name err));;
          readValues host key names' variables
      | inr value =>
          readValues host key names'
            (variables ++ [{| Name := name; Value := value; Operation := "set" |}])
      end
  end.

(** [readVariablesFromRegistry] reads all environment variables from a
    specific registry location. *)
Definition readVariablesFromRegistry (host : Host) (hive : Hive) (subkeyPath : string)
    : IO (error + list EnvVar) :=
  key ← registry.OpenKey host hive subkeyPath READ;
  match key with
  | inl err =>
      mret (inl (Errorf ("failed to open registry key " +:+ hiveName hive +:+ "\"
                         +:+ subkeyPath +:+ " for reading: ") err))
  | inr key =>
      names ← registry.ReadValueNames host key;
      match names with
      | inl err =>
          registry.Close key;;
          mret (inl (Errorf "failed to read value names from registry key: " err))
      | inr names =>
          variables ← readValues host key names [];
          registry.Close key;;
          mret (inr variables)
      end
  end.

(** [exportEnvironmentVariables] reads all current environment
    variables from the Windows registry. *)
Definition exportEnvironmentVariables (host : Host) (isAdmin : bool) : IO (error + Config) :=
  (* Always export user variables *)
  user ← readVariablesFromRegistry host CURRENT_USER userPath;
  match user with
  | inl err => mret (inl (Errorf "failed to read user environment variables: " err))
  | inr user =>
      (* Only export system variables if running as administrator *)
      if isAdmin then
        system ← readVariablesFromRegistry host LOCAL_MACHINE systemPath;
        match system with
        | inl err => mret (inl (Errorf "failed to read system environment variables: " err))
        | inr system => mret (inr {| UserVariables := user; SystemVariables := system |})
        end
      else
        emit (Stdout SkippingSystemExport);;
        mret (inr {| UserVariables := user; SystemVariables := [] |})
  end.

(** [saveConfigToFile] marshals a Config struct to YAML format and
    saves it to disk. *)
Definition saveConfigToFile (host : Host) (config : Config) (filePath : string)
    : IO (option error) :=
  match yaml_Marshal host config with
  | inl err => mret (Some (Errorf "failed to marshal config to YAML: " err))
  | inr yamlData =>
      err ← ioutil_WriteFile host filePath yamlData;
      match err with
      | Some err => mret (Some (Errorf ("failed to write YAML to file " +:+ filePath +:+ ": ") err))
      | None => mret None
      end
  end.

(** "Ensure exported file has proper YAML extension": the [if] of the
    export handler that rewrites [savePath]. *)
Definition ensureYAMLExtension (savePath : string) : string :=
  if negb (HasSuffix (ToLower savePath) ".yaml") && negb (HasSuffix (ToLower savePath) ".yml")
  then savePath +:+ ".yaml"
  else savePath.

Definition Save (host : Host) : IO (error + string) := λ reg,
  (save_dialog host, reg, [SaveDialog]).

(** Button to export current environment variables to a YAML file. *)
Definition exportButton (host : Host) (isAdmin : bool) : IO unit :=
  emit (SetText "Exporting variables... Please wait.");;
  emit Refresh;;
  configToExport ← exportEnvironmentVariables host isAdmin;
  match configToExport with
  | inl exportErr =>
      emit (SetText ("Error exporting variables: " +:+ Error exportErr));;
      emit (ShowError (Errorf "error exporting variables: " exportErr));;
      emit Refresh
  | inr configToExport =>
      savePath ← Save host;
      match savePath with
      | inl err =>
          (if String.eqb (Error err) "cancelled" then
             emit (SetText "Export cancelled.")
           else
             emit (SetText ("Error saving file: " +:+ Error err));;
             emit (ShowError (Errorf "error saving file: " err)));;
          emit Refresh
      | inr savePath =>
          if String.eqb savePath "" then
            emit (SetText "Export cancelled.");;
            emit Refresh
          else
            let savePath := ensureYAMLExtension savePath in
            saveErr ← saveConfigToFile host configToExport savePath;
            match saveErr with
            | Some saveErr =>
                emit (SetText ("Error writing config to file: " +:+ Error saveErr));;
                emit (ShowError (Errorf "error writing config to file: " saveErr));;
                emit Refresh
            | None =>
                emit (SetText ("Variables exported successfully to: " +:+ savePath));;
                emit (ShowInformation "Export Success"
                        ("All current environment variables exported to:" +:+ nl +:+ savePath));;
                emit Refresh
            end
      end
  end.

(** ** Vocabulary of the specification *)

(** "The path ends in a case-insensitive [ext] suffix": a final part of
    the path is [ext] up to the case of its letters. *)
Definition EndsWithFold (path ext : string) : Prop :=
  ∃ stem e, path = stem +:+ e ∧ ToLower e = ext.

Definition RecognizedExtension (path : string) : Prop :=
  EndsWithFold path ".yaml" ∨ EndsWithFold path ".yml".

(** A byte that is neither a path separator nor a '.'. *)
Definition plain (c : ascii) : bool :=
  negb (IsPathSeparator c) && negb (Ascii.eqb c ".").

(** The store location a registry call acts on. *)
Definition target (e : Event) : option Hive :=
  match e with
  | RegOpenKey h _ _ | RegCloseKey h | RegSetValue h _ _
  | RegDeleteValue h _ | RegEnumValues h | RegQueryValue h _ => Some h
  | _ => None
  end.

(** A call that writes to the store. *)
Definition mutation (e : Event) : option Hive :=
  match e with
  | RegSetValue h _ _ | RegDeleteValue h _ => Some h
  | _ => None
  end.

Definition is_broadcast (e : Event) : bool :=
  match e with SendMessageTimeoutW _ _ _ _ => true | _ => false end.

Definition is_file_read (e : Event) : bool :=
  match e with ReadFile _ => true | _ => false end.

Definition is_file_write (e : Event) : bool :=
  match e with WriteFile _ _ => true | _ => false end.

(** The rejection of a file that is not a YAML file. *)
Definition UnsupportedFileTypeError : error :=
  errors_New "invalid file type: please select a valid YAML file (.yaml or .yml extension)".

(** The file writes of a run, in order. *)
Definition file_writes (t : list Event) : list Event :=
  filter (λ e, is_file_write e = true) t.

(** Every entry of the list has the operation "set". *)
Definition all_set (vs : list EnvVar) : Prop := Forall (λ v, Operation v = "set") vs.

Definition broadcasts (t : list Event) : nat := length (filter (λ e, is_broadcast e = true) t).

(** The per-entry outcome lines and the variable each is about. *)
Definition subject (l : Line) : option string :=
  match l with
  | SetFailed n _ _ | SetOk n _ | AlreadyAbsent n | DeleteFailed n _ | DeleteOk n
  | UnknownOperation _ n => Some n
  | _ => None
  end.

Definition outcome (e : Event) : option Line :=
  match e with
  | Stdout l => match subject l with Some _ => Some l | None => None end
  | _ => None
  end.

(** The outcome lines of a run, in the order they were written. *)
Definition outcomes (t : list Event) : list Line := omap outcome t.

(** What the loop of the applier may do for an entry: write to its key
    and report on the entry. *)
Definition entry_event (key : Hive) (e : Event) : bool :=
  match e with
  | RegSetValue h _ _ | RegDeleteValue h _ => bool_decide (h = key)
  | Stdout l => match subject l with Some _ => true | None => false end
  | _ => false
  end.

(** The entry was reported as failed. *)
Definition failed (l : Line) : bool :=
  match l with SetFailed _ _ _ | DeleteFailed _ _ => true | _ => false end.

(** The kind of outcome an operation string allows. *)
Definition allows (operation : string) (l : Line) : bool :=
  match l with
  | SetOk _ _ | SetFailed _ _ _ => String.eqb operation "set"
  | DeleteOk _ | AlreadyAbsent _ | DeleteFailed _ _ => String.eqb operation "delete"
  | UnknownOperation op _ =>
      negb (String.eqb operation "set") && negb (String.eqb operation "delete")
      && String.eqb op operation
  | _ => false
  end.

(** What an entry leaves under its name when the store lets it through:
    [Some (Some v)] a value, [Some None] nothing; [None] when the entry
    leaves the store as it was. *)
Definition written (host : Host) (key : Hive) (v : EnvVar) : option (option string) :=
  if String.eqb (Operation v) "set" then
    match set_string_value host key (Name v) (Value v) with
    | None => Some (Some (Value v))
    | Some _ => None
    end
  else if String.eqb (Operation v) "delete" then
    match delete_value host key (Name v) with
    | None => Some None
    | Some _ => None
    end
  else None.

(** The last entry of the list that gets through for [name] decides. *)
Fixpoint last_written (host : Host) (key : Hive) (vs : list EnvVar) (name : string)
    : option (option string) :=
  match vs with
  | [] => None
  | v :: vs' =>
      match last_written host key vs' name with
      | Some w => Some w
      | None => if decide (Name v = name) then written host key v else None
      end
  end.

Definition settled (host : Host) (key : Hive) (vs : list EnvVar) (name : string)
    (before : option string) : option string :=
  match last_written host key vs name with
  | Some w => w
  | None => before
  end.

(** The scopes whose entries an apply run gets to process: the user
    scope when its location opens, the system scope when moreover the
    process is elevated and that location opens too. *)
Definition processes (host : Host) (isAdmin : bool) (h : Hive) : bool :=
  match h with
  | CURRENT_USER => bool_decide (open_key host CURRENT_USER SET_VALUE = None)
  | LOCAL_MACHINE =>
      bool_decide (open_key host CURRENT_USER SET_VALUE = None)
      && isAdmin
      && bool_decide (open_key host LOCAL_MACHINE SET_VALUE = None)
  end.

Definition entries (config : Config) (h : Hive) : list EnvVar :=
  match h with
  | CURRENT_USER => UserVariables config
  | LOCAL_MACHINE => SystemVariables config
  end.

(** The calls of the notification step and of what follows it. *)
Definition notification (host : Host) : list Event :=
  [Stdout Broadcasting;
   SendMessageTimeoutW HWND_BROADCAST WM_SETTINGCHANGE "Environment" 5000]
  ++ match send_message_timeout host with
     | Some err =>
         let err := Errorf "SendMessageTimeoutW failed: " err in
         [SetText ("Error broadcasting changes: " +:+ Error err);
          ShowError (Errorf "error broadcasting WM_SETTINGCHANGE: " err);
          Refresh]
     | None =>
         [SetText "Environment variables applied successfully. Some applications may need to be restarted.";
          ShowInformation "Success"
            ("Environment variables applied successfully." +:+ nl +:+ nl +:+
             "Please note: Some applications (like Explorer, Command Prompt, PowerShell) may need to be restarted to reflect the changes.");
          Refresh]
     end.

(** The abort of an apply run on a location that does not open: the
    error names the location and carries the cause. *)
Definition StoreAccessError (hive : Hive) (subkeyPath : string) (cause : error) : error :=
  Errorf ("failed to open registry key " +:+ hiveName hive +:+ "\" +:+ subkeyPath +:+ ": ") cause.

Definition aborted (scope : string) (err : error) : list Event :=
  [SetText ("Error applying " +:+ scope +:+ " variables: " +:+ Error err);
   ShowError (Errorf ("error applying " +:+ scope +:+ " variables: ") err);
   Refresh].

(** The notice that the system entries were skipped for lack of
    privilege. *)
Definition skipped : list Event :=
  [SetText "System variables were ignored. Relaunch as admin to apply them.";
   ShowInformation "Admin Required"
     "To apply system environment variables, please relaunch the app as Administrator.";
   Refresh].

(** The store refuses none of the writes and removals the entries ask
    for. *)
Definition accepts (host : Host) (key : Hive) (vs : list EnvVar) : Prop :=
  ∀ v, v ∈ vs →
    set_string_value host key (Name v) (Value v) = None
    ∧ delete_value host key (Name v) = None.

(** ** Hosts, stores and configurations to run the program on *)

Module Scenario.

Definition accessDenied : error :=
  {| Error := "Access is denied."; IsNotExist := false |}.

(** A host on which every call succeeds; the selected file parses to
    [config]. *)
Definition healthy (config : Config) : Host := {|
  open_key := λ _ _, None;
  set_string_value := λ _ _ _, None;
  delete_value := λ _ _, None;
  read_value_names := λ _, None;
  get_string_value := λ _ _, None;
  read_file := λ _, inr "user_variables: []";
  yaml_Unmarshal := λ _, inr config;
  yaml_Marshal := λ _, inr "user_variables: []";
  write_file := λ _ _, None;
  send_message_timeout := None;
  save_dialog := inr "backup"
|}.

(** The same host, except that the location of [hive] cannot be
    opened. *)
Definition locked (hive : Hive) (config : Config) : Host := {|
  open_key := λ h _, if decide (h = hive) then Some accessDenied else None;
  set_string_value := λ _ _ _, None;
  delete_value := λ _ _, None;
  read_value_names := λ _, None;
  get_string_value := λ _ _, None;
  read_file := λ _, inr "user_variables: []";
  yaml_Unmarshal := λ _, inr config;
  yaml_Marshal := λ _, inr "user_variables: []";
  write_file := λ _ _, None;
  send_message_timeout := None;
  save_dialog := inr "backup"
|}.

(** The same host, except that the store refuses to write [name]. *)
Definition refusing (name : string) (config : Config) : Host := {|
  open_key := λ _ _, None;
  set_string_value := λ _ n _, if decide (n = name) then Some accessDenied else None;
  delete_value := λ _ _, None;
  read_value_names := λ _, None;
  get_string_value := λ _ _, None;
  read_file := λ _, inr "user_variables: []";
  yaml_Unmarshal := λ _, inr config;
  yaml_Marshal := λ _, inr "user_variables: []";
  write_file := λ _ _, None;
  send_message_timeout := None;
  save_dialog := inr "backup"
|}.

Definition blank : Registry := {| user_env := ∅; system_env := ∅ |}.

Definition set_ (name value : string) : EnvVar :=
  {| Name := name; Value := value; Operation := "set" |}.
Definition delete_ (name : string) : EnvVar :=
  {| Name := name; Value := ""; Operation := "delete" |}.
Definition frobnicate (name : string) : EnvVar :=
  {| Name := name; Value := ""; Operation := "frobnicate" |}.

(** Only the system list is non-empty. *)
Definition systemOnly : Config :=
  {| UserVariables := []; SystemVariables := [set_ "JAVA_HOME" "C:\jdk-17"] |}.

Definition mixed : Config :=
  {| UserVariables := [set_ "FOO" "1"; frobnicate "BAZ"; delete_ "OLD"; set_ "FOO" "2"];
     SystemVariables := [set_ "JAVA_HOME" "C:\jdk-17"] |}.

End Scenario.

(** ** Privilege gate, start-up and relaunch *)

(** [contains] is a helper function to check if a string exists in a
    slice of strings. *)
Fixpoint contains (s : list string) (str : string) : bool :=
  match s with
  | [] => false
  | v :: s' => if String.eqb v str then true else contains s' str
  end.

(** One call of ShellExecuteW: the verb, the file, the parameter string,
    the working directory and the show command. *)
Record ShellExecuteCall := {
  verb : string;
  file : string;
  parameters : string;
  directory : string;
  show : Z
}.

Definition SW_NORMAL : Z := 1.

(** What shell32 and the process environment answer. *)
Record Platform := {
  (* IsUserAnAdmin: the returned value and the call error, [None]
     standing for syscall.Errno(0) *)
  IsUserAnAdmin : Z * option error;
  (* os.Executable() *)
  os_Executable : error + string;
  (* os.Getwd(), whose error the program drops *)
  os_Getwd : string;
  (* ShellExecuteW: the returned value and the call error *)
  ShellExecuteW : ShellExecuteCall → Z * error
}.

(** [isRunningAsAdmin] checks if the current process has administrator
    privileges using the Windows API. *)
Definition isRunningAsAdmin (platform : Platform) : bool * option error :=
  match IsUserAnAdmin platform with
  | (_, Some callErr) => (false, Some callErr)
  | (ret, None) => (negb (ret =? 0)%Z, None)
  end.

(** [strings.Join]. *)
Definition strings_Join (elems : list string) (sep : string) : string :=
  String.concat sep elems.

(** [elevateAsAdmin] relaunches the current executable with
    administrator privileges via UAC.  The result is the call made to
    ShellExecuteW, if it got that far, and the error returned. *)
Definition elevateAsAdmin (platform : Platform) (args : list string)
    : option ShellExecuteCall * option error :=
  match os_Executable platform with
  | inl err => (None, Some (Errorf "cannot find executable path: " err))
  | inr exePath =>
      let call := {| verb := "runas"; file := exePath;
                     parameters := strings_Join args " ";
                     directory := os_Getwd platform; show := SW_NORMAL |} in
      let '(r, err) := ShellExecuteW platform call in
      (* ShellExecuteW returns > 32 on success *)
      (Some call,
       if (r <=? 32)%Z then Some (Errorf "ShellExecuteW failed: " err) else None)
  end.

(** The arguments the "Relaunch as Admin" button forwards: the command
    line arguments [os.Args[1:]], and the selected file when it is not
    among them.  [os.Args] holds the program name first. *)
Definition relaunchArgs (osArgs : list string) (selectedFilePath : string) : list string :=
  let args := drop 1 osArgs in
  if negb (String.eqb selectedFilePath "") && negb (contains args selectedFilePath)
  then args ++ [selectedFilePath]
  else args.

(** How a press of "Relaunch as Admin" ends: the call made, the error
    shown in a dialog, and whether the application quits. *)
Record Relaunch := {
  launched : option ShellExecuteCall;
  shown : option error;
  quits : bool
}.

Definition runAsAdminButton (platform : Platform) (osArgs : list string)
    (selectedFilePath : string) : Relaunch :=
  let '(call, err) := elevateAsAdmin platform (relaunchArgs osArgs selectedFilePath) in
  match err with
  | Some err =>
      {| launched := call; shown := Some (Errorf "failed to relaunch as admin: " err);
         quits := false |}
  | None => {| launched := call; shown := None; quits := true |}
  end.

(** The state [main] sets up before the window is shown. *)
Record Session := {
  isAdmin : bool;
  logged : option string;      (* log.Printf of the privilege warning *)
  adminStatus : string;
  selectedFilePath : string;
  filePathLabel : string;
  statusLabel : string
}.

Definition startup (platform : Platform) (osArgs : list string) : Session :=
  let '(isAdmin, err) := isRunningAsAdmin platform in
  (* a config file passed as command line argument (used during UAC elevation) *)
  let selectedFilePath := match osArgs with _ :: path :: _ => path | _ => "" end in
  {| isAdmin := isAdmin;
     logged := (λ err, "Warning: Could not determine admin status: " +:+ Error err) <$> err;
     adminStatus := if isAdmin then "Administrator" else "Standard User";
     selectedFilePath := selectedFilePath;
     filePathLabel :=
       if String.eqb selectedFilePath "" then "No file selected."
       else "Selected: " +:+ selectedFilePath;
     statusLabel :=
       if String.eqb selectedFilePath "" then "Ready. Please select a YAML config file."
       else "File pre-selected. Click 'Preview Changes' or 'Apply Variables' to proceed." |}.

(** ** Further vocabulary *)

Definition is_dialog (e : Event) : bool :=
  match e with ShowError _ | ShowInformation _ _ => true | _ => false end.

(** The dialogs a run shows. *)
Definition dialogs (t : list Event) : nat := length (filter (λ e, is_dialog e = true) t).

Definition is_window (e : Event) : bool :=
  match e with PreviewWindow _ => true | _ => false end.

Definition is_open (h : Hive) (e : Event) : bool :=
  match e with RegOpenKey h' _ _ => bool_decide (h' = h) | _ => false end.

Definition is_close (h : Hive) (e : Event) : bool :=
  match e with RegCloseKey h' => bool_decide (h' = h) | _ => false end.

Definition opens (h : Hive) (t : list Event) : nat :=
  length (filter (λ e, is_open h e = true) t).

Definition closes (h : Hive) (t : list Event) : nat :=
  length (filter (λ e, is_close h e = true) t).

(** The dialog that reports a successful apply run. *)
Definition success : Event :=
  ShowInformation "Success"
    ("Environment variables applied successfully." +:+ nl +:+ nl +:+
     "Please note: Some applications (like Explorer, Command Prompt, PowerShell) may need to be restarted to reflect the changes.").

(** The host whose SendMessageTimeoutW answers [answer] and whose other
    answers are those of [host]. *)
Definition with_broadcast_answer (host : Host) (answer : option error) : Host := {|
  open_key := open_key host;
  set_string_value := set_string_value host;
  delete_value := delete_value host;
  read_value_names := read_value_names host;
  get_string_value := get_string_value host;
  read_file := read_file host;
  yaml_Unmarshal := yaml_Unmarshal host;
  yaml_Marshal := yaml_Marshal host;
  write_file := write_file host;
  send_message_timeout := answer;
  save_dialog := save_dialog host
|}.

(** What an export run may do to the outside world before the save
    dialog: read the registry, at the system location only when
    elevated, and report on standard output. *)
Definition export_event (isAdmin : bool) (e : Event) : bool :=
  match e with
  | RegOpenKey h _ READ | RegCloseKey h | RegEnumValues h | RegQueryValue h _ =>
      isAdmin || bool_decide (h = CURRENT_USER)
  | Stdout (ReadWarning _ _) | Stdout SkippingSystemExport => true
  | _ => false
  end.

(** The variable exported for a value name, when the value can be read. *)
Definition exported (host : Host) (reg : Registry) (key : Hive) (name : string)
    : option EnvVar :=
  match values reg key !! name with
  | None => None
  | Some value =>
      match get_string_value host key name with
      | Some _ => None
      | None => Some {| Name := name; Value := value; Operation := "set" |}
      end
  end.

(** The lines of the preview that are about the configuration as a
    whole. *)
Definition previewWarning : string :=
  "  ⚠️  WARNING: Running as standard user - system variables will be IGNORED".
Definition previewNothing : string :=
  "No environment variables found in the configuration file.".

(** The registry call an entry asks for, if any. *)
Definition store_call (key : Hive) (v : EnvVar) : option Event :=
  if String.eqb (Operation v) "set" then Some (RegSetValue key (Name v) (Value v))
  else if String.eqb (Operation v) "delete" then Some (RegDeleteValue key (Name v))
  else None.

(** The calls of a run that write or remove a registry value. *)
Definition store_calls (t : list Event) : list Event :=
  filter (λ e, is_Some (mutation e)) t.

(** No byte of the string is a path separator. *)
Definition no_separator (s : string) : Prop :=
  Forall (λ c, IsPathSeparator c = false) (bytes s).

Module Desk.

(** A platform on which the process is elevated and the relaunch
    succeeds. *)
Definition elevated : Platform := {|
  IsUserAnAdmin := (1%Z, None);
  os_Executable := inr "C:\Tools\SystemVariableManager.exe";
  os_Getwd := "C:\Tools";
  ShellExecuteW := λ _, (42%Z, Scenario.accessDenied)
|}.

(** A platform on which the privilege query fails and the user
    declines the elevation prompt. *)
Definition unknown : Platform := {|
  IsUserAnAdmin := (1%Z, Some Scenario.accessDenied);
  os_Executable := inr "C:\Tools\SystemVariableManager.exe";
  os_Getwd := "C:\Tools";
  ShellExecuteW := λ _, (5%Z, Scenario.accessDenied)
|}.

(** A store with two user values and one system value. *)
Definition stocked : Registry :=
  {| user_env := <["GOPATH" := "C:\go"]> (<["NODE_ENV" := "development"]> ∅);
     system_env := <["JAVA_HOME" := "C:\jdk-17"]> ∅ |}.

(** A host on which the selected file cannot be read. *)
Definition unreadable : Host := {|
  open_key := λ _ _, None;
  set_string_value := λ _ _ _, None;
  delete_value := λ _ _, None;
  read_value_names := λ _, None;
  get_string_value := λ _ _, None;
  read_file := λ _, inl Scenario.accessDenied;
  yaml_Unmarshal := λ _, inr Scenario.mixed;
  yaml_Marshal := λ _, inr "user_variables: []";
  write_file := λ _ _, None;
  send_message_timeout := None;
  save_dialog := inr "backup"
|}.

End Desk.

(** * Properties *)

(** ** Strings *)

Section GoStringFacts.

Lemma bytes_str l : bytes (str l) = l.
Proof. apply list_ascii_of_string_of_list_ascii. Qed.

Lemma str_bytes s : str (bytes s) = s.
Proof. apply string_of_list_ascii_of_string. Qed.

Lemma bytes_inj s1 s2 : bytes s1 = bytes s2 → s1 = s2.
Proof. intros E. rewrite <- (str_bytes s1), <- (str_bytes s2). by rewrite E. Qed.

Lemma bytes_app s1 s2 : bytes (s1 +:+ s2) = bytes s1 ++ bytes s2.
Proof. induction s1 as [|c s1 IH]; simpl; [done | by rewrite <- IH]. Qed.

Lemma str_app l1 l2 : str (l1 ++ l2) = str l1 +:+ str l2.
Proof. apply bytes_inj. by rewrite bytes_app, !bytes_str. Qed.

Lemma length_bytes s : length (bytes s) = String.length s.
Proof. induction s as [|c s IH]; simpl; [done | by rewrite <- IH]. Qed.

Lemma ToLower_app s1 s2 : ToLower (s1 +:+ s2) = ToLower s1 +:+ ToLower s2.
Proof. unfold ToLower. by rewrite bytes_app, map_app, str_app. Qed.

Lemma bytes_ToLower s : bytes (ToLower s) = map lowerByte (bytes s).
Proof. apply bytes_str. Qed.

(** [HasSuffix] holds exactly of the strings that end in [suffix]. *)
Lemma HasSuffix_spec s suffix :
  HasSuffix s suffix = true ↔ ∃ stem, s = stem +:+ suffix.
Proof.
  unfold HasSuffix. rewrite andb_true_iff, Nat.leb_le, bool_decide_eq_true.
  rewrite <- !length_bytes. split.
  - intros [Hlen Hdrop].
    remember (length (bytes s) - length (bytes suffix)) as n eqn:Hn. clear Hn.
    exists (str (take n (bytes s))).
    apply bytes_inj. rewrite bytes_app, bytes_str, <- Hdrop.
    by rewrite take_drop.
  - intros [stem ->]. rewrite bytes_app, length_app. split; [lia |].
    replace (length (bytes stem) + length (bytes suffix) - length (bytes suffix))
      with (length (bytes stem)) by lia.
    by rewrite drop_app_length.
Qed.

(** Lowering a byte neither makes nor unmakes a '.' or a separator. *)
Lemma plain_lowerByte c : plain (lowerByte c) = plain c.
Proof. by destruct c as [[] [] [] [] [] [] [] []]. Qed.

Lemma lowerByte_dot c : lowerByte c = "."%char → c = "."%char.
Proof. by destruct c as [[] [] [] [] [] [] [] []]. Qed.

Lemma ext_walk_plain todo rest visited :
  forallb plain todo = true →
  ext_walk (todo ++ "."%char :: rest) visited = "."%char :: rev todo ++ visited.
Proof.
  revert visited. induction todo as [|c todo IH]; intros visited Hp; [done |].
  simpl in Hp. apply andb_true_iff in Hp as [Hc Hp].
  unfold plain in Hc. apply andb_true_iff in Hc as [Hs Hd].
  apply negb_true_iff in Hs, Hd. simpl. rewrite Hs, Hd, IH by done.
  by rewrite <- app_assoc.
Qed.

Lemma ext_walk_suffix todo visited :
  ∃ stem, rev todo ++ visited = stem ++ ext_walk todo visited.
Proof.
  revert visited. induction todo as [|c todo IH]; intros visited; simpl.
  - exists visited. by rewrite app_nil_r.
  - destruct (IsPathSeparator c).
    + exists (rev todo ++ [c] ++ visited). by rewrite app_nil_r, <- app_assoc.
    + destruct (Ascii.eqb c ".").
      * exists (rev todo). by rewrite <- app_assoc.
      * destruct (IH (c :: visited)) as [stem E]. exists stem.
        by rewrite <- app_assoc.
Qed.

(** [filepath.Ext] returns a suffix of the path. *)
Lemma Ext_suffix path : ∃ stem, path = stem +:+ Ext path.
Proof.
  destruct (ext_walk_suffix (rev (bytes path)) []) as [stem E].
  rewrite rev_involutive, app_nil_r in E. exists (str stem).
  apply bytes_inj. unfold Ext. by rewrite bytes_app, !bytes_str.
Qed.

End GoStringFacts.

(** ** File-type guard *)

Example isValidYAMLFile_upper : isValidYAMLFile "cfg.YML" = true.
Proof. reflexivity. Qed.
Example isValidYAMLFile_dir : isValidYAMLFile "C:\conf.d\cfg" = false.
Proof. reflexivity. Qed.

Section Guard.

Lemma forallb_plain_lower l : forallb plain (map lowerByte l) = forallb plain l.
Proof. induction l as [|c l IH]; simpl; [done | by rewrite plain_lowerByte, IH]. Qed.

Lemma forallb_plain_rev l : forallb plain (rev l) = forallb plain l.
Proof.
  induction l as [|c l IH]; simpl; [done |].
  rewrite forallb_app, IH. simpl. by rewrite andb_true_r, andb_comm.
Qed.

(** A suffix that starts with '.' and has no further '.' nor a
    separator is the extension. *)
Lemma Ext_app stem e tail :
  bytes e = "."%char :: tail → forallb plain tail = true →
  Ext (stem +:+ e) = e.
Proof.
  intros He Hplain. unfold Ext.
  rewrite bytes_app, He, rev_app_distr. simpl. rewrite <- app_assoc. simpl.
  rewrite ext_walk_plain by (by rewrite forallb_plain_rev).
  by rewrite rev_involutive, app_nil_r, <- He, str_bytes.
Qed.

Lemma HasSuffix_fold path ext :
  HasSuffix (ToLower path) ext = true ↔ EndsWithFold path ext.
Proof.
  rewrite HasSuffix_spec. split.
  - intros [stem E]. apply (f_equal bytes) in E.
    rewrite bytes_ToLower, bytes_app in E.
    exists (str (take (length (bytes stem)) (bytes path))),
           (str (drop (length (bytes stem)) (bytes path))).
    split.
    + by rewrite <- str_app, take_drop, str_bytes.
    + unfold ToLower. rewrite bytes_str, <- List.skipn_map, E.
      by rewrite drop_app_length, str_bytes.
  - intros (stem & e & -> & <-). exists (ToLower stem). apply ToLower_app.
Qed.

(** [isValidYAMLFile] accepts exactly the paths that end in ".yaml"
    or ".yml", whatever the case of the letters. *)
Lemma isValidYAMLFile_spec path :
  isValidYAMLFile path = true ↔ RecognizedExtension path.
Proof.
  unfold isValidYAMLFile, RecognizedExtension.
  rewrite orb_true_iff, !String.eqb_eq. split.
  - destruct (Ext_suffix path) as [stem E].
    intros [H|H]; [left | right]; by exists stem, (Ext path).
  - assert (Hext : ∀ ext tail,
              bytes ext = "."%char :: tail → forallb plain tail = true →
              EndsWithFold path ext → ToLower (Ext path) = ext).
    { intros ext tail Hext Hplain (stem & e & -> & Hlow).
      apply (f_equal bytes) in Hlow. rewrite bytes_ToLower, Hext in Hlow.
      destruct (bytes e) as [|c0 rest] eqn:He; [done |].
      simpl in Hlow. injection Hlow as Hc0 Hrest.
      apply lowerByte_dot in Hc0 as ->.
      rewrite (Ext_app stem e rest He).
      - apply bytes_inj. by rewrite bytes_ToLower, He, Hext, <- Hrest.
      - by rewrite <- forallb_plain_lower, Hrest. }
    intros [H|H]; [left | right]; eapply Hext; try exact H; reflexivity.
Qed.

Lemma isValidYAMLFile_HasSuffix path :
  isValidYAMLFile path
  = HasSuffix (ToLower path) ".yaml" || HasSuffix (ToLower path) ".yml".
Proof.
  apply eq_true_iff_eq.
  rewrite isValidYAMLFile_spec, orb_true_iff, !HasSuffix_fold. done.
Qed.

Lemma ensureYAMLExtension_valid savePath :
  isValidYAMLFile (ensureYAMLExtension savePath) = true.
Proof.
  unfold ensureYAMLExtension. rewrite <- negb_orb, <- isValidYAMLFile_HasSuffix.
  destruct (isValidYAMLFile savePath) eqn:Hvalid; [done |]. simpl.
  apply isValidYAMLFile_spec. left. by exists savePath, ".yaml".
Qed.

End Guard.

(** ** Runs *)

Section Runs.

Context {A B : Type}.

Lemma run_bind (m : IO A) (k : A → IO B) reg :
  (m ≫= k) reg =
    (result (k (result (m reg)) (store (m reg))),
     store (k (result (m reg)) (store (m reg))),
     trace (m reg) ++ trace (k (result (m reg)) (store (m reg)))).
Proof.
  unfold mbind, IO_bind, result, store, trace.
  destruct (m reg) as [[a reg1] t1]; simpl.
  by destruct (k a reg1) as [[b reg2] t2].
Qed.

Lemma trace_bind (m : IO A) (k : A → IO B) reg :
  trace ((m ≫= k) reg) = trace (m reg) ++ trace (k (result (m reg)) (store (m reg))).
Proof. by rewrite run_bind. Qed.

Lemma store_bind (m : IO A) (k : A → IO B) reg :
  store ((m ≫= k) reg) = store (k (result (m reg)) (store (m reg))).
Proof. by rewrite run_bind. Qed.

Lemma result_bind (m : IO A) (k : A → IO B) reg :
  result ((m ≫= k) reg) = result (k (result (m reg)) (store (m reg))).
Proof. by rewrite run_bind. Qed.

End Runs.

Lemma run_eta {A} (r : A * Registry * list Event) : r = (result r, store r, trace r).
Proof. by destruct r as [[a reg] t]. Qed.

Lemma Registry_eq (r1 r2 : Registry) :
  (∀ h, values r1 h = values r2 h) → r1 = r2.
Proof.
  intros E. destruct r1 as [u1 s1], r2 as [u2 s2].
  pose proof (E CURRENT_USER) as Eu. pose proof (E LOCAL_MACHINE) as Es.
  simpl in Eu, Es. by subst.
Qed.

Lemma values_with_values reg h h' m :
  values (with_values reg h m) h' = if decide (h' = h) then m else values reg h'.
Proof. by destruct h, h'. Qed.

(** ** The loop of the applier *)

Section Loop.

Context {A : Type} (body : A → IO unit).

Lemma forEach_cons x xs reg :
  forEach (x :: xs) body reg =
    (tt, store (forEach xs body (store (body x reg))),
     trace (body x reg) ++ trace (forEach xs body (store (body x reg)))).
Proof.
  simpl. rewrite run_bind. f_equal. f_equal.
  by destruct (result (forEach xs body (store (body x reg)))).
Qed.

Lemma forEach_app xs ys reg :
  forEach (xs ++ ys) body reg =
    (tt, store (forEach ys body (store (forEach xs body reg))),
     trace (forEach xs body reg) ++ trace (forEach ys body (store (forEach xs body reg)))).
Proof.
  revert reg. induction xs as [|x xs IH]; intros reg.
  - simpl. rewrite (run_eta (forEach ys body reg)) at 1.
    by destruct (result (forEach ys body reg)).
  - rewrite <- app_comm_cons, !forEach_cons, IH. simpl.
    by rewrite app_assoc.
Qed.

Lemma forEach_Forall (P : Event → Prop) xs reg :
  (∀ x reg, x ∈ xs → Forall P (trace (body x reg))) →
  Forall P (trace (forEach xs body reg)).
Proof.
  revert reg. induction xs as [|x xs IH]; intros reg HP.
  - constructor.
  - rewrite forEach_cons. simpl. apply Forall_app. split.
    + apply HP. by left.
    + apply IH. intros y reg' Hy. apply HP. by right.
Qed.

End Loop.

(** ** One entry *)

Section Entry.

Context (host : Host) (key : Hive).

Lemma applyVariable_set v reg :
  Operation v = "set" →
  applyVariable host key v reg =
    match set_string_value host key (Name v) (Value v) with
    | Some err =>
        (tt, reg, [RegSetValue key (Name v) (Value v);
                   Stdout (SetFailed (Name v) (Value v) err)])
    | None =>
        (tt, with_values reg key (<[Name v := Value v]> (values reg key)),
         [RegSetValue key (Name v) (Value v); Stdout (SetOk (Name v) (Value v))])
    end.
Proof.
  intros Hop. unfold applyVariable. rewrite Hop. simpl.
  unfold mbind, IO_bind, registry.SetStringValue.
  by destruct (set_string_value host key (Name v) (Value v)).
Qed.

Lemma applyVariable_delete v reg :
  Operation v = "delete" →
  applyVariable host key v reg =
    match values reg key !! Name v with
    | None => (tt, reg, [RegDeleteValue key (Name v); Stdout (AlreadyAbsent (Name v))])
    | Some _ =>
        match delete_value host key (Name v) with
        | Some err =>
            (tt, reg, [RegDeleteValue key (Name v);
                       Stdout (if IsNotExist err then AlreadyAbsent (Name v)
                               else DeleteFailed (Name v) err)])
        | None =>
            (tt, with_values reg key (delete (Name v) (values reg key)),
             [RegDeleteValue key (Name v); Stdout (DeleteOk (Name v))])
        end
    end.
Proof.
  intros Hop. unfold applyVariable. rewrite Hop. simpl.
  unfold mbind, IO_bind, registry.DeleteValue.
  destruct (values reg key !! Name v); [| done].
  destruct (delete_value host key (Name v)) as [err|]; [| done].
  by destruct (IsNotExist err).
Qed.

Lemma applyVariable_unknown v reg :
  Operation v ≠ "set" → Operation v ≠ "delete" →
  applyVariable host key v reg =
    (tt, reg, [Stdout (UnknownOperation (Operation v) (Name v))]).
Proof.
  intros Hs Hd. unfold applyVariable.
  apply String.eqb_neq in Hs, Hd. by rewrite Hs, Hd.
Qed.

(** The three arms of the [switch], with the store's answer in each. *)
Ltac arms v reg :=
  destruct (String.eqb_spec (Operation v) "set") as [Hset|Hset];
  [ rewrite (applyVariable_set v reg Hset);
    destruct (set_string_value host key (Name v) (Value v)) as [err|] eqn:Hwrite
  | destruct (String.eqb_spec (Operation v) "delete") as [Hdel|Hdel];
    [ rewrite (applyVariable_delete v reg Hdel);
      destruct (values reg key !! Name v) as [old|] eqn:Hold;
      [ destruct (delete_value host key (Name v)) as [err|] eqn:Hremove;
        [ destruct (IsNotExist err) eqn:Hkind |] |]
    | rewrite (applyVariable_unknown v reg Hset Hdel) ] ].

Lemma applyVariable_outcome v reg :
  ∃ l, outcomes (trace (applyVariable host key v reg)) = [l]
       ∧ subject l = Some (Name v) ∧ allows (Operation v) l = true.
Proof.
  arms v reg; eexists; (split; [reflexivity |]); (split; [reflexivity |]); simpl;
    rewrite ?Hset, ?Hdel; try reflexivity.
  apply String.eqb_neq in Hset, Hdel. by rewrite Hset, Hdel, String.eqb_refl.
Qed.

Lemma applyVariable_events v reg :
  Forall (λ e, entry_event key e = true) (trace (applyVariable host key v reg)).
Proof.
  arms v reg; repeat constructor; simpl; by rewrite ?bool_decide_eq_true.
Qed.

Lemma applyVariable_accepted v reg :
  set_string_value host key (Name v) (Value v) = None →
  delete_value host key (Name v) = None →
  Forall (λ l, failed l = false) (outcomes (trace (applyVariable host key v reg))).
Proof.
  intros Hw Hr. arms v reg; try congruence; by repeat constructor.
Qed.

Lemma applyVariable_other v reg h :
  h ≠ key → values (store (applyVariable host key v reg)) h = values reg h.
Proof.
  intros Hne. arms v reg; simpl; try done;
    unfold store; simpl; rewrite values_with_values; by case_decide.
Qed.

Lemma applyVariable_lookup v reg name :
  values (store (applyVariable host key v reg)) key !! name =
    if decide (Name v = name)
    then match written host key v with
         | Some w => w
         | None => values reg key !! name
         end
    else values reg key !! name.
Proof.
  unfold written.
  arms v reg; unfold store; simpl;
    rewrite ?values_with_values, ?decide_True by done;
    repeat match goal with
    | H : Operation v = _ |- _ => rewrite H; simpl
    | H : Operation v ≠ _ |- _ => apply String.eqb_neq in H; rewrite H
    end;
    rewrite ?Hwrite, ?Hremove; case_decide; subst;
    rewrite ?lookup_insert_eq, ?lookup_insert_ne, ?lookup_delete_eq, ?lookup_delete_ne by done;
    try done.
  rewrite Hold. by destruct (delete_value host key (Name v)).
Qed.

End Entry.

(** ** A scope's entry list *)

Section Scope.

Context (host : Host) (key : Hive).

Local Abbreviation loop vs := (forEach vs (applyVariable host key)).

Lemma outcomes_app t1 t2 : outcomes (t1 ++ t2) = outcomes t1 ++ outcomes t2.
Proof. apply omap_app. Qed.

Lemma loop_outcomes vs reg :
  Forall2 (λ v l, subject l = Some (Name v) ∧ allows (Operation v) l = true)
          vs (outcomes (trace (loop vs reg))).
Proof.
  revert reg. induction vs as [|v vs IH]; intros reg.
  - constructor.
  - rewrite forEach_cons. simpl. rewrite outcomes_app.
    destruct (applyVariable_outcome host key v reg) as (l & -> & Hl).
    simpl. constructor; [done | apply IH].
Qed.

Lemma loop_events vs reg :
  Forall (λ e, entry_event key e = true) (trace (loop vs reg)).
Proof. apply forEach_Forall. intros v reg' _. apply applyVariable_events. Qed.

Lemma loop_accepted vs reg :
  accepts host key vs →
  Forall (λ l, failed l = false) (outcomes (trace (loop vs reg))).
Proof.
  revert reg. induction vs as [|v vs IH]; intros reg Hacc.
  - constructor.
  - rewrite forEach_cons. simpl. rewrite outcomes_app. apply Forall_app. split.
    + destruct (Hacc v) as [Hw Hr]; [by left |]. by apply applyVariable_accepted.
    + apply IH. intros w Hw. apply Hacc. by right.
Qed.

Lemma loop_other vs reg h :
  h ≠ key → values (store (loop vs reg)) h = values reg h.
Proof.
  intros Hne. revert reg. induction vs as [|v vs IH]; intros reg; [done |].
  rewrite forEach_cons. unfold store at 1. simpl.
  by rewrite IH, applyVariable_other.
Qed.

(** Under each name the loop leaves what the last entry that got
    through for it left, and what was there before if none did. *)
Lemma loop_lookup vs reg name :
  values (store (loop vs reg)) key !! name =
    settled host key vs name (values reg key !! name).
Proof.
  revert reg. induction vs as [|v vs IH]; intros reg; [done |].
  rewrite forEach_cons. unfold store at 1. simpl.
  rewrite IH, applyVariable_lookup. unfold settled. simpl.
  destruct (last_written host key vs name); [done |].
  case_decide; [| done]. by destruct (written host key v).
Qed.

Lemma settled_idem vs name before :
  settled host key vs name (settled host key vs name before)
  = settled host key vs name before.
Proof. unfold settled. by destruct (last_written host key vs name). Qed.

Lemma applyVariables_locked vs path reg err :
  open_key host key SET_VALUE = Some err →
  applyVariables host vs key path reg =
    (Some (Errorf ("failed to open registry key " +:+ hiveName key +:+ "\"
                   +:+ path +:+ ": ") err),
     reg, [RegOpenKey key path SET_VALUE]).
Proof.
  intros Hopen. unfold applyVariables. rewrite run_bind.
  unfold registry.OpenKey. cbn [result store trace fst snd]. by rewrite Hopen.
Qed.

Lemma applyVariables_opened vs path reg :
  open_key host key SET_VALUE = None →
  applyVariables host vs key path reg =
    (None, store (loop vs reg),
     RegOpenKey key path SET_VALUE :: trace (loop vs reg) ++ [RegCloseKey key]).
Proof.
  intros Hopen. unfold applyVariables. rewrite run_bind.
  unfold registry.OpenKey. cbn [result store trace fst snd]. rewrite Hopen.
  rewrite !run_bind. unfold registry.Close, emit, mret, IO_ret.
  by cbn [result store trace fst snd app].
Qed.

End Scope.

(** ** An apply run *)

Section Apply.

Context (host : Host).

Local Abbreviation loop h vs := (forEach vs (applyVariable host h)).

(** The run of [applyConfig], case by case. *)
Lemma applyConfig_run isAdmin config reg :
  applyConfig host isAdmin config reg =
    match open_key host CURRENT_USER SET_VALUE with
    | Some err =>
        (tt, reg,
         [Stdout ApplyingUser; RegOpenKey CURRENT_USER userPath SET_VALUE]
         ++ aborted "user" (StoreAccessError CURRENT_USER userPath err))
    | None =>
        let user := loop CURRENT_USER (UserVariables config) reg in
        let done_user :=
          [Stdout ApplyingUser; RegOpenKey CURRENT_USER userPath SET_VALUE]
          ++ trace user ++ [RegCloseKey CURRENT_USER] in
        if isAdmin then
          match open_key host LOCAL_MACHINE SET_VALUE with
          | Some err =>
              (tt, store user,
               done_user
               ++ [Stdout ApplyingSystem; RegOpenKey LOCAL_MACHINE systemPath SET_VALUE]
               ++ aborted "system" (StoreAccessError LOCAL_MACHINE systemPath err))
          | None =>
              let system := loop LOCAL_MACHINE (SystemVariables config) (store user) in
              (tt, store system,
               done_user
               ++ [Stdout ApplyingSystem; RegOpenKey LOCAL_MACHINE systemPath SET_VALUE]
               ++ trace system ++ [RegCloseKey LOCAL_MACHINE]
               ++ notification host)
          end
        else if (0 <? length (SystemVariables config))%nat then
          (tt, store user, done_user ++ skipped)
        else
          (tt, store user, done_user ++ notification host)
    end.
Proof.
  unfold applyConfig, applyVariables, broadcastSettingChange, notification, aborted,
    StoreAccessError, skipped, registry.OpenKey, registry.Close, emit,
    mbind, IO_bind, mret, IO_ret, store, trace.
  destruct (open_key host CURRENT_USER SET_VALUE) as [err|]; [done |].
  destruct (loop CURRENT_USER (UserVariables config) reg) as [[[] reg1] t1].
  cbn [fst snd]. destruct isAdmin.
  - destruct (open_key host LOCAL_MACHINE SET_VALUE) as [err|].
    + cbn [app]. by rewrite <- !app_assoc.
    + destruct (loop LOCAL_MACHINE (SystemVariables config) reg1) as [[[] reg2] t2].
      destruct (send_message_timeout host); cbn [fst snd app];
        by rewrite <- !app_assoc.
  - destruct (0 <? length (SystemVariables config))%nat.
    + cbn [app]. by rewrite <- !app_assoc.
    + destruct (send_message_timeout host); cbn [app]; by rewrite <- !app_assoc.
Qed.

End Apply.

(** ** Traces *)

Lemma broadcasts_app t1 t2 : broadcasts (t1 ++ t2) = broadcasts t1 + broadcasts t2.
Proof. unfold broadcasts. by rewrite filter_app, length_app. Qed.

Lemma broadcasts_none t :
  Forall (λ e, is_broadcast e = false) t → broadcasts t = 0.
Proof.
  unfold broadcasts. induction 1 as [|e t He _ IH]; [done |].
  rewrite filter_cons_False; [done | congruence].
Qed.

Lemma entry_event_quiet key e :
  entry_event key e = true →
  is_broadcast e = false ∧ is_file_read e = false
  ∧ (∀ h, target e = Some h → h = key).
Proof.
  destruct e; simpl; try done; intros H; repeat split; try done;
    intros h' [= <-]; by apply bool_decide_eq_true in H.
Qed.

Lemma loop_broadcasts host key vs reg :
  broadcasts (trace (forEach vs (applyVariable host key) reg)) = 0.
Proof.
  apply broadcasts_none. eapply Forall_impl; [apply loop_events |].
  intros e He. by apply entry_event_quiet in He as (? & _).
Qed.

Lemma loop_targets host key vs reg :
  Forall (λ e, ∀ h, target e = Some h → h = key)
         (trace (forEach vs (applyVariable host key) reg)).
Proof.
  eapply Forall_impl; [apply loop_events |].
  intros e He. by apply entry_event_quiet in He as (_ & _ & ?).
Qed.

Lemma notification_broadcasts host : broadcasts (notification host) = 1.
Proof. unfold notification. by destruct (send_message_timeout host). Qed.

Lemma notification_outcomes host : outcomes (notification host) = [].
Proof. unfold notification. by destruct (send_message_timeout host). Qed.

(** ** The claims *)

(** C7: within one scope's entry list every entry is visited and has
    its own outcome recorded, whatever the store answered for the
    entries before it.  The outcome lines of the loop match the entries
    one for one and in order, each about its entry's name and of a kind
    its operation allows (written or failed for "set"; removed, already
    absent or failed for "delete"; unknown otherwise).  The loop on a
    list is the loop on the entries before an entry, then that entry in
    the store so reached, then the loop on the entries after it. *)
Theorem C7_every_entry_visited host key variables reg :
  Forall2 (λ v l, subject l = Some (Name v) ∧ allows (Operation v) l = true)
          variables
          (outcomes (trace (forEach variables (applyVariable host key) reg)))
  ∧ ∀ before v after,
      let reached := store (forEach before (applyVariable host key) reg) in
      let entry := applyVariable host key v reached in
      let rest := forEach after (applyVariable host key) (store entry) in
      forEach (before ++ v :: after) (applyVariable host key) reg
      = (tt, store rest,
         trace (forEach before (applyVariable host key) reg) ++ trace entry ++ trace rest).
Proof.
  split; [apply loop_outcomes |].
  intros before v after reached entry rest.
  by rewrite forEach_app, forEach_cons.
Qed.

(** A refused write in the middle of a list: the entries after it are
    processed all the same. *)
Example refused_write_does_not_halt :
  outcomes (trace (forEach (UserVariables Scenario.mixed)
                     (applyVariable (Scenario.refusing "FOO" Scenario.mixed) CURRENT_USER)
                     Scenario.blank))
  = [SetFailed "FOO" "1" Scenario.accessDenied;
     UnknownOperation "frobnicate" "BAZ";
     AlreadyAbsent "OLD";
     SetFailed "FOO" "2" Scenario.accessDenied].
Proof. reflexivity. Qed.

(** C5: an entry whose operation is neither "set" nor "delete" makes no
    registry call and leaves the store as it is; the only thing it does
    is write the "Unknown operation ... Skipping." line.  The entries
    around it are processed as they are without it, and the applier
    returns what it returns without it: no error is raised on its
    account. *)
Theorem C5_unknown_operation_skipped host key v :
  Operation v ≠ "set" → Operation v ≠ "delete" →
  (∀ reg, applyVariable host key v reg
          = (tt, reg, [Stdout (UnknownOperation (Operation v) (Name v))]))
  ∧ (∀ before after reg,
       let reached := forEach before (applyVariable host key) reg in
       forEach (before ++ v :: after) (applyVariable host key) reg
       = (tt, store (forEach (before ++ after) (applyVariable host key) reg),
          trace reached
          ++ Stdout (UnknownOperation (Operation v) (Name v))
             :: trace (forEach after (applyVariable host key) (store reached))))
  ∧ (∀ before after path reg,
       result (applyVariables host (before ++ v :: after) key path reg)
       = result (applyVariables host (before ++ after) key path reg)
       ∧ store (applyVariables host (before ++ v :: after) key path reg)
         = store (applyVariables host (before ++ after) key path reg)).
Proof.
  intros Hset Hdel.
  assert (Hv : ∀ reg, applyVariable host key v reg
                      = (tt, reg, [Stdout (UnknownOperation (Operation v) (Name v))]))
    by (intros reg; by apply applyVariable_unknown).
  assert (Hloop : ∀ before after reg,
             store (forEach (before ++ v :: after) (applyVariable host key) reg)
             = store (forEach (before ++ after) (applyVariable host key) reg)).
  { intros before after reg. by rewrite !forEach_app, forEach_cons, Hv. }
  split; [done |]. split.
  - intros before after reg reached. rewrite <- Hloop.
    by rewrite forEach_app, forEach_cons, Hv.
  - intros before after path reg.
    destruct (open_key host key SET_VALUE) as [err|] eqn:Hopen.
    + by rewrite !(applyVariables_locked _ _ _ _ _ err Hopen).
    + rewrite !(applyVariables_opened _ _ _ _ _ Hopen). split; [done |].
      apply Hloop.
Qed.

Lemma C5_unknown_operation_skipped_witness :
  applyVariable (Scenario.healthy Scenario.mixed) CURRENT_USER
    (Scenario.frobnicate "BAZ") Scenario.blank
  = (tt, Scenario.blank, [Stdout (UnknownOperation "frobnicate" "BAZ")]).
Proof.
  apply (C5_unknown_operation_skipped (Scenario.healthy Scenario.mixed) CURRENT_USER
           (Scenario.frobnicate "BAZ")); discriminate.
Defined.

Lemma applyConfig_lookup host isAdmin config reg h name :
  values (store (applyConfig host isAdmin config reg)) h !! name =
    if processes host isAdmin h
    then settled host h (entries config h) name (values reg h !! name)
    else values reg h !! name.
Proof.
  rewrite applyConfig_run. unfold processes, entries.
  destruct (open_key host CURRENT_USER SET_VALUE) as [err|].
  { rewrite bool_decide_eq_false_2 by done. by destruct h. }
  rewrite bool_decide_eq_true_2 by done.
  destruct isAdmin; [destruct (open_key host LOCAL_MACHINE SET_VALUE) as [err|] |
                     destruct (0 <? length (SystemVariables config))%nat];
    rewrite ?bool_decide_eq_false_2, ?bool_decide_eq_true_2 by done;
    cbn [store fst snd andb]; destruct h;
    rewrite ?loop_lookup, ?(loop_other _ LOCAL_MACHINE _ _ CURRENT_USER),
      ?(loop_other _ CURRENT_USER _ _ LOCAL_MACHINE), ?loop_lookup by done;
    done.
Qed.

Lemma applyConfig_outcomes host isAdmin config reg :
  accepts host CURRENT_USER (UserVariables config) →
  accepts host LOCAL_MACHINE (SystemVariables config) →
  Forall (λ l, failed l = false) (outcomes (trace (applyConfig host isAdmin config reg))).
Proof.
  intros Hu Hs. rewrite applyConfig_run.
  destruct (open_key host CURRENT_USER SET_VALUE) as [err|]; [by constructor |].
  pose proof (loop_accepted host CURRENT_USER _ reg Hu) as Huser.
  destruct isAdmin.
  - destruct (open_key host LOCAL_MACHINE SET_VALUE) as [err|]; cbn [trace snd];
      rewrite !outcomes_app, ?notification_outcomes; simpl; rewrite ?app_nil_r; [done |].
    apply Forall_app. split; [done |]. by apply loop_accepted.
  - destruct (0 <? length (SystemVariables config))%nat; cbn [trace snd];
      rewrite !outcomes_app, ?notification_outcomes; simpl; by rewrite ?app_nil_r.
Qed.

(** C3: a "delete" entry whose name the key does not hold is reported
    as already absent ("Variable ... already deleted or did not
    exist."), not as failed, and the store is left as it is.  Applying
    a configuration to the store a first application of it left leaves
    that store unchanged.  When the store refuses none of the writes
    and removals the configuration asks for, no entry of the second run
    is reported as failed. *)
Theorem C3_delete_absent_and_idempotence host :
  (∀ key v reg,
     Operation v = "delete" → values reg key !! Name v = None →
     applyVariable host key v reg
     = (tt, reg, [RegDeleteValue key (Name v); Stdout (AlreadyAbsent (Name v))]))
  ∧ (∀ isAdmin config reg,
       let once := store (applyConfig host isAdmin config reg) in
       store (applyConfig host isAdmin config once) = once)
  ∧ (∀ isAdmin config reg,
       accepts host CURRENT_USER (UserVariables config) →
       accepts host LOCAL_MACHINE (SystemVariables config) →
       let once := store (applyConfig host isAdmin config reg) in
       Forall (λ l, failed l = false)
              (outcomes (trace (applyConfig host isAdmin config once)))).
Proof.
  split; [| split].
  - intros key v reg Hop Habsent.
    by rewrite applyVariable_delete, Habsent.
  - intros isAdmin config reg once. apply Registry_eq. intros h.
    apply map_eq. intros name. unfold once.
    rewrite !applyConfig_lookup.
    destruct (processes host isAdmin h); [| done]. apply settled_idem.
  - intros isAdmin config reg Hu Hs once. by apply applyConfig_outcomes.
Qed.

Lemma C3_delete_absent_and_idempotence_witness :
  applyVariable (Scenario.healthy Scenario.mixed) CURRENT_USER
    (Scenario.delete_ "OLD") Scenario.blank
  = (tt, Scenario.blank, [RegDeleteValue CURRENT_USER "OLD"; Stdout (AlreadyAbsent "OLD")])
  ∧ Forall (λ l, failed l = false)
      (outcomes (trace (applyConfig (Scenario.healthy Scenario.mixed) true Scenario.mixed
         (store (applyConfig (Scenario.healthy Scenario.mixed) true Scenario.mixed
                   Scenario.blank))))).
Proof.
  destruct (C3_delete_absent_and_idempotence (Scenario.healthy Scenario.mixed))
    as (Hdelete & _ & Hquiet).
  split.
  - apply (Hdelete CURRENT_USER (Scenario.delete_ "OLD") Scenario.blank); reflexivity.
  - apply (Hquiet true Scenario.mixed Scenario.blank); intros v _; split; reflexivity.
Defined.

(** C2: when the process is not elevated and the configuration has a
    non-empty [system_variables] list, no registry call of the apply run
    acts on the system location, whose values stay as they were.  In a
    run whose user location opens, every [user_variables] entry is
    processed against the user location, in order, and has its outcome
    recorded; the run then ends with the one notice that the system
    variables were ignored, and no outcome line is written for a system
    entry. *)
Theorem C2_system_scope_skipped_without_privilege host config reg :
  SystemVariables config ≠ [] →
  let run := applyConfig host false config reg in
  let user := forEach (UserVariables config) (applyVariable host CURRENT_USER) reg in
  Forall (λ e, target e ≠ Some LOCAL_MACHINE) (trace run)
  ∧ system_env (store run) = system_env reg
  ∧ (open_key host CURRENT_USER SET_VALUE = None →
       run = (tt, store user,
              [Stdout ApplyingUser; RegOpenKey CURRENT_USER userPath SET_VALUE]
              ++ trace user ++ [RegCloseKey CURRENT_USER] ++ skipped)
       ∧ Forall2 (λ v l, subject l = Some (Name v) ∧ allows (Operation v) l = true)
                 (UserVariables config) (outcomes (trace run))).
Proof.
  intros Hsys run user.
  assert (Hlen : (0 <? length (SystemVariables config))%nat = true).
  { apply Nat.ltb_lt. destruct (SystemVariables config); [done | simpl; lia]. }
  assert (Huser : Forall (λ e, target e ≠ Some LOCAL_MACHINE) (trace user)).
  { eapply Forall_impl; [apply loop_targets |].
    intros e He Ht. by specialize (He _ Ht). }
  subst run. rewrite applyConfig_run, Hlen.
  destruct (open_key host CURRENT_USER SET_VALUE) as [err|]; cbn [trace store fst snd].
  - split; [by repeat constructor |]. split; [done |]. done.
  - fold user. split; [| split].
    + rewrite !Forall_app. repeat split; try done; by repeat constructor.
    + change (system_env ?r) with (values r LOCAL_MACHINE). by apply loop_other.
    + intros _. split; [by rewrite <- !app_assoc |].
      rewrite !outcomes_app. simpl. rewrite !app_nil_r. apply loop_outcomes.
Qed.

Lemma C2_system_scope_skipped_without_privilege_witness :
  let run := applyConfig (Scenario.healthy Scenario.mixed) false Scenario.mixed
               Scenario.blank in
  Forall (λ e, target e ≠ Some LOCAL_MACHINE) (trace run)
  ∧ Forall2 (λ v l, subject l = Some (Name v) ∧ allows (Operation v) l = true)
            (UserVariables Scenario.mixed) (outcomes (trace run)).
Proof.
  destruct (C2_system_scope_skipped_without_privilege
              (Scenario.healthy Scenario.mixed) Scenario.mixed Scenario.blank)
    as (Hquiet & _ & Huser); [discriminate |].
  split; [exact Hquiet |]. apply Huser. reflexivity.
Defined.

(** C8: when the location of a scope does not open for writing, the
    apply run stops there with an error that names the location and
    carries the cause.  On the user location: nothing but the attempt
    and the error report happens, the store is untouched, the system
    scope is not looked at and nothing is broadcast.  On the system
    location (reached when elevated, after the user scope): no system
    entry is processed, no call writes to the system location and
    nothing is broadcast.  Per-entry outcomes, by contrast, never make
    the applier return an error: it returns one exactly when the
    location does not open, and a run whose locations open and whose
    system scope is not skipped always reaches the broadcast, once. *)
Theorem C8_store_access_error_aborts host isAdmin config reg :
  (∀ err, open_key host CURRENT_USER SET_VALUE = Some err →
     applyConfig host isAdmin config reg
     = (tt, reg,
        [Stdout ApplyingUser; RegOpenKey CURRENT_USER userPath SET_VALUE]
        ++ aborted "user" (StoreAccessError CURRENT_USER userPath err))
     ∧ Error (StoreAccessError CURRENT_USER userPath err)
       = "failed to open registry key HKEY_CURRENT_USER\Environment: " +:+ Error err)
  ∧ (∀ err, isAdmin = true →
       open_key host CURRENT_USER SET_VALUE = None →
       open_key host LOCAL_MACHINE SET_VALUE = Some err →
       let user := forEach (UserVariables config) (applyVariable host CURRENT_USER) reg in
       let run := applyConfig host isAdmin config reg in
       run = (tt, store user,
              [Stdout ApplyingUser; RegOpenKey CURRENT_USER userPath SET_VALUE]
              ++ trace user ++ [RegCloseKey CURRENT_USER]
              ++ [Stdout ApplyingSystem; RegOpenKey LOCAL_MACHINE systemPath SET_VALUE]
              ++ aborted "system" (StoreAccessError LOCAL_MACHINE systemPath err))
       ∧ Forall (λ e, mutation e ≠ Some LOCAL_MACHINE) (trace run)
       ∧ system_env (store run) = system_env reg
       ∧ broadcasts (trace run) = 0
       ∧ Error (StoreAccessError LOCAL_MACHINE systemPath err)
         = "failed to open registry key HKEY_LOCAL_MACHINE\SYSTEM\CurrentControlSet\Control\Session Manager\Environment: "
           +:+ Error err)
  ∧ (∀ variables key path,
       result (applyVariables host variables key path reg)
       = StoreAccessError key path <$> open_key host key SET_VALUE)
  ∧ (open_key host CURRENT_USER SET_VALUE = None →
     (if isAdmin then open_key host LOCAL_MACHINE SET_VALUE = None
      else SystemVariables config = []) →
     broadcasts (trace (applyConfig host isAdmin config reg)) = 1).
Proof.
  split; [| split; [| split]].
  - intros err Hopen. by rewrite applyConfig_run, Hopen.
  - intros err -> Huser Hsystem user run. subst run.
    rewrite applyConfig_run, Huser, Hsystem. fold user.
    assert (Hquiet : Forall (λ e, mutation e ≠ Some LOCAL_MACHINE) (trace user)).
    { eapply Forall_impl; [apply loop_targets |].
      intros e He Hm. destruct e; try done; simpl in Hm;
        by specialize (He _ Hm). }
    cbn [trace store fst snd]. split; [by rewrite <- !app_assoc |].
    split; [| split; [| split]].
    + rewrite !Forall_app. repeat split; try done; by repeat constructor.
    + change (system_env ?r) with (values r LOCAL_MACHINE). by apply loop_other.
    + rewrite !broadcasts_app. unfold user. by rewrite loop_broadcasts.
    + done.
  - intros variables key path.
    destruct (open_key host key SET_VALUE) as [err|] eqn:Hopen.
    + by rewrite (applyVariables_locked _ _ _ _ _ err Hopen).
    + by rewrite (applyVariables_opened _ _ _ _ _ Hopen).
  - intros Huser Hsystem. rewrite applyConfig_run, Huser.
    destruct isAdmin.
    + rewrite Hsystem. cbn [trace snd].
      rewrite !broadcasts_app, !loop_broadcasts, notification_broadcasts. done.
    + rewrite Hsystem. cbn [trace snd length Nat.ltb Nat.leb].
      rewrite !broadcasts_app, !loop_broadcasts, notification_broadcasts. done.
Qed.

Lemma C8_store_access_error_aborts_witness :
  applyConfig (Scenario.locked CURRENT_USER Scenario.mixed) true Scenario.mixed Scenario.blank
  = (tt, Scenario.blank,
     [Stdout ApplyingUser; RegOpenKey CURRENT_USER userPath SET_VALUE]
     ++ aborted "user" (StoreAccessError CURRENT_USER userPath Scenario.accessDenied))
  ∧ broadcasts (trace (applyConfig (Scenario.locked LOCAL_MACHINE Scenario.mixed) true
                         Scenario.mixed Scenario.blank)) = 0
  ∧ broadcasts (trace (applyConfig (Scenario.refusing "FOO" Scenario.mixed) true
                         Scenario.mixed Scenario.blank)) = 1.
Proof.
  split; [| split].
  - apply (C8_store_access_error_aborts (Scenario.locked CURRENT_USER Scenario.mixed)
             true Scenario.mixed Scenario.blank). reflexivity.
  - apply (C8_store_access_error_aborts (Scenario.locked LOCAL_MACHINE Scenario.mixed)
             true Scenario.mixed Scenario.blank) with Scenario.accessDenied; reflexivity.
  - apply (C8_store_access_error_aborts (Scenario.refusing "FOO" Scenario.mixed)
             true Scenario.mixed Scenario.blank); reflexivity.
Defined.

(** ** The handlers *)

Lemma applyEnvVars_run host isAdmin path reg :
  applyEnvVars host isAdmin path reg =
    if String.eqb path "" then
      (tt, reg, [ShowInformation "Error" "Please select a YAML configuration file first."])
    else if negb (isValidYAMLFile path) then
      (tt, reg, [ShowError UnsupportedFileTypeError])
    else
      let started := [SetText "Applying variables... Please wait."; Refresh; ReadFile path] in
      match read_file host path with
      | inl err =>
          (tt, reg,
           started ++ [SetText ("Error reading YAML file: " +:+ Error err);
                       ShowError (Errorf ("error reading YAML file " +:+ path +:+ ": ") err);
                       Refresh])
      | inr yamlFile =>
          match yaml_Unmarshal host yamlFile with
          | inl err =>
              (tt, reg,
               started ++ [SetText ("Error unmarshaling YAML: " +:+ Error err);
                           ShowError (Errorf "error unmarshaling YAML: " err);
                           Refresh])
          | inr config =>
              (tt, store (applyConfig host isAdmin config reg),
               started ++ trace (applyConfig host isAdmin config reg))
          end
      end.
Proof.
  unfold applyEnvVars. destruct (String.eqb path ""); [done |].
  destruct (negb (isValidYAMLFile path)); [done |].
  unfold ioutil_ReadFile, emit, mbind, IO_bind, store, trace.
  destruct (read_file host path) as [err|yamlFile]; [done |].
  destruct (yaml_Unmarshal host yamlFile) as [err|config]; [done |].
  by destruct (applyConfig host isAdmin config reg) as [[[] reg1] t1].
Qed.

Lemma applyConfig_broadcasts host isAdmin config reg :
  (broadcasts (trace (applyConfig host isAdmin config reg)) ≤ 1)%nat.
Proof.
  rewrite applyConfig_run.
  destruct (open_key host CURRENT_USER SET_VALUE) as [err|]; [simpl; unfold broadcasts; simpl; lia |].
  destruct isAdmin;
    [destruct (open_key host LOCAL_MACHINE SET_VALUE) as [err|] |
     destruct (0 <? length (SystemVariables config))%nat];
    cbn [trace snd]; rewrite !broadcasts_app, ?loop_broadcasts, ?notification_broadcasts;
    unfold broadcasts; simpl; lia.
Qed.

(** No run of the apply action broadcasts more than once. *)
Lemma broadcast_at_most_once host isAdmin path reg :
  (broadcasts (trace (applyEnvVars host isAdmin path reg)) ≤ 1)%nat.
Proof.
  rewrite applyEnvVars_run.
  destruct (String.eqb path ""); [unfold broadcasts; simpl; lia |].
  destruct (negb (isValidYAMLFile path)); [unfold broadcasts; simpl; lia |].
  destruct (read_file host path) as [err|yamlFile]; [unfold broadcasts; simpl; lia |].
  destruct (yaml_Unmarshal host yamlFile) as [err|config]; [unfold broadcasts; simpl; lia |].
  cbn [trace snd]. rewrite broadcasts_app.
  pose proof (applyConfig_broadcasts host isAdmin config reg).
  unfold broadcasts at 1. simpl. lia.
Qed.

(** Without elevation a non-empty system list ends the run before the
    broadcast, whatever was applied to the user scope. *)
Lemma skip_notice_no_broadcast host config reg :
  SystemVariables config ≠ [] →
  broadcasts (trace (applyConfig host false config reg)) = 0.
Proof.
  intros Hsys. rewrite applyConfig_run.
  destruct (open_key host CURRENT_USER SET_VALUE) as [err|]; [done |].
  destruct (SystemVariables config); [done |].
  cbn [trace snd length Nat.ltb Nat.leb].
  by rewrite !broadcasts_app, loop_broadcasts.
Qed.

(** C1, at a configuration whose only non-empty list is
    [system_variables], run without elevation on a host where every
    call succeeds: the user location is opened and closed, the notice
    that system variables were ignored is shown, and the run ends
    there, having called SendMessageTimeoutW zero times, where the
    specification has the Notifier still invoked.  The preview of the
    same configuration announces the broadcast, and the same run with
    elevation makes it once. *)
Theorem C1_skip_notice_ends_run_before_broadcast :
  let host := Scenario.healthy Scenario.systemOnly in
  let run := applyEnvVars host false "cfg.yaml" Scenario.blank in
  trace run
  = [SetText "Applying variables... Please wait."; Refresh; ReadFile "cfg.yaml";
     Stdout ApplyingUser; RegOpenKey CURRENT_USER userPath SET_VALUE;
     RegCloseKey CURRENT_USER] ++ skipped
  ∧ broadcasts (trace run) = 0
  ∧ "Note: After applying changes, a WM_SETTINGCHANGE message will be"
      ∈ previewContent Scenario.systemOnly false
  ∧ "broadcast to notify other applications of the environment changes."
      ∈ previewContent Scenario.systemOnly false
  ∧ broadcasts (trace (applyEnvVars host true "cfg.yaml" Scenario.blank)) = 1.
Proof.
  repeat split; try reflexivity; simpl; set_solver.
Qed.

(** C6: [isValidYAMLFile] is true exactly of the paths that end in
    ".yaml" or ".yml" in any mix of upper and lower case; "cfg.YML" and
    "cfg.yaml" pass, "cfg.txt" and "cfg" do not.  A path that does not
    pass is rejected by the apply and the preview actions before the
    file is read: the run reads no file, leaves the store as it is, and
    (for a path that is not empty) consists of the one error dialog
    "invalid file type: ...". *)
Theorem C6_extension_guard :
  (∀ path, isValidYAMLFile path = true ↔ RecognizedExtension path)
  ∧ isValidYAMLFile "cfg.YML" = true
  ∧ isValidYAMLFile "cfg.yaml" = true
  ∧ isValidYAMLFile "cfg.txt" = false
  ∧ isValidYAMLFile "cfg" = false
  ∧ (∀ host isAdmin path reg,
       isValidYAMLFile path = false →
       let run := applyEnvVars host isAdmin path reg in
       Forall (λ e, is_file_read e = false) (trace run)
       ∧ store run = reg
       ∧ (path ≠ "" → trace run = [ShowError UnsupportedFileTypeError]))
  ∧ (∀ host isAdmin path reg,
       isValidYAMLFile path = false →
       let run := previewChanges host isAdmin path reg in
       Forall (λ e, is_file_read e = false) (trace run)
       ∧ store run = reg
       ∧ (path ≠ "" → trace run = [ShowError UnsupportedFileTypeError])).
Proof.
  split; [apply isValidYAMLFile_spec |].
  do 4 (split; [reflexivity |]).
  split; intros host isAdmin path reg Hinvalid run; subst run.
  - rewrite applyEnvVars_run, Hinvalid.
    destruct (String.eqb_spec path "") as [->|Hne]; simpl.
    + by repeat constructor.
    + by repeat constructor.
  - unfold previewChanges. rewrite Hinvalid.
    destruct (String.eqb_spec path "") as [->|Hne]; simpl.
    + by repeat constructor.
    + by repeat constructor.
Qed.

Lemma C6_extension_guard_witness :
  trace (applyEnvVars (Scenario.healthy Scenario.mixed) true "cfg.txt" Scenario.blank)
  = [ShowError UnsupportedFileTypeError]
  ∧ RecognizedExtension "cfg.YML".
Proof.
  destruct C6_extension_guard as (Hspec & Hyml & _ & _ & _ & Happly & _).
  split.
  - apply (Happly (Scenario.healthy Scenario.mixed) true "cfg.txt" Scenario.blank).
    + reflexivity.
    + discriminate.
  - apply Hspec. exact Hyml.
Defined.

(** ** Export *)

Section Exporter.

Context (host : Host).

Lemma readValues_props key names variables reg :
  all_set variables →
  all_set (result (readValues host key names variables reg))
  ∧ Forall (λ e, is_file_write e = false) (trace (readValues host key names variables reg))
  ∧ store (readValues host key names variables reg) = reg.
Proof.
  revert variables. induction names as [|name names IH]; intros variables Hset.
  - by repeat split.
  - simpl. rewrite result_bind, trace_bind, store_bind.
    unfold registry.GetStringValue. cbn [result store trace fst snd].
    assert (Hwarn : ∀ err,
      let run := (emit (Stdout (ReadWarning name err));;
                  readValues host key names variables) reg in
      all_set (result run) ∧ Forall (λ e, is_file_write e = false) (trace run)
      ∧ store run = reg).
    { intros err run. subst run. rewrite result_bind, trace_bind, store_bind.
      cbn [emit result store trace fst snd].
      destruct (IH variables Hset) as (? & ? & ?). repeat split; try done.
      by constructor. }
    destruct (values reg key !! name) as [value|].
    + destruct (get_string_value host key name) as [err|].
      * destruct (Hwarn err) as (? & ? & ?). repeat split; try done. by constructor.
      * destruct (IH (variables ++ [{| Name := name; Value := value; Operation := "set" |}]))
          as (? & ? & ?).
        { apply Forall_app. split; [done |]. by repeat constructor. }
        repeat split; try done. by constructor.
    + destruct (Hwarn ErrNotExist) as (? & ? & ?). repeat split; try done. by constructor.
Qed.

Lemma readVariablesFromRegistry_props hive path reg :
  let run := readVariablesFromRegistry host hive path reg in
  match result run with inr variables => all_set variables | inl _ => True end
  ∧ Forall (λ e, is_file_write e = false) (trace run)
  ∧ store run = reg.
Proof.
  intros run. subst run. unfold readVariablesFromRegistry.
  rewrite result_bind, trace_bind, store_bind.
  unfold registry.OpenKey. cbn [result store trace fst snd].
  destruct (open_key host hive READ) as [err|].
  { repeat split; by repeat constructor. }
  rewrite result_bind, trace_bind, store_bind.
  unfold registry.ReadValueNames. cbn [result store trace fst snd].
  destruct (read_value_names host hive) as [err|].
  { repeat split; by repeat constructor. }
  rewrite !result_bind, !trace_bind, !store_bind.
  destruct (readValues_props hive (map_to_list (values reg hive)).*1 [] reg)
    as (Hset & Hquiet & Hstore); [constructor |].
  cbn [registry.Close emit result store trace fst snd mret IO_ret].
  repeat split; try done.
  repeat (apply Forall_cons; split; [done |]).
  apply Forall_app. split; [done |]. by repeat constructor.
Qed.

Lemma exportEnvironmentVariables_props isAdmin reg :
  let run := exportEnvironmentVariables host isAdmin reg in
  match result run with
  | inr config => all_set (UserVariables config ++ SystemVariables config)
  | inl _ => True
  end
  ∧ Forall (λ e, is_file_write e = false) (trace run)
  ∧ store run = reg.
Proof.
  intros run. subst run. unfold exportEnvironmentVariables.
  rewrite result_bind, trace_bind, store_bind.
  destruct (readVariablesFromRegistry_props CURRENT_USER userPath reg)
    as (Huser & Hquiet & ->).
  destruct (result (readVariablesFromRegistry host CURRENT_USER userPath reg))
    as [err|user].
  { repeat split; try done. rewrite Forall_app. split; [done | constructor]. }
  destruct isAdmin.
  - rewrite result_bind, trace_bind, store_bind.
    destruct (readVariablesFromRegistry_props LOCAL_MACHINE systemPath reg)
      as (Hsystem & Hquiet' & ->).
    destruct (result (readVariablesFromRegistry host LOCAL_MACHINE systemPath reg))
      as [err|system]; cbn [result store trace fst snd mret IO_ret].
    + repeat split; try done. rewrite !Forall_app. by repeat split.
    + repeat split; try done.
      * by apply Forall_app.
      * rewrite !Forall_app. by repeat split.
  - rewrite result_bind, trace_bind, store_bind.
    cbn [emit result store trace fst snd mret IO_ret UserVariables SystemVariables].
    repeat split; try done.
    + by rewrite app_nil_r.
    + rewrite !Forall_app. repeat split; try done; by repeat constructor.
Qed.

End Exporter.

Lemma file_writes_none t :
  Forall (λ e, is_file_write e = false) t → file_writes t = [].
Proof.
  unfold file_writes. induction 1 as [|e t He _ IH]; [done |].
  rewrite filter_cons_False; [done | congruence].
Qed.

Lemma file_writes_app t1 t2 : file_writes (t1 ++ t2) = file_writes t1 ++ file_writes t2.
Proof. apply filter_app. Qed.

(** The one file an export run writes, if it gets that far: the
    marshalled export, at the chosen path with its extension ensured. *)
Lemma exportButton_writes host isAdmin reg :
  file_writes (trace (exportButton host isAdmin reg)) =
    match result (exportEnvironmentVariables host isAdmin reg), save_dialog host with
    | inr config, inr savePath =>
        if String.eqb savePath "" then []
        else match yaml_Marshal host config with
             | inr yamlData => [WriteFile (ensureYAMLExtension savePath) yamlData]
             | inl _ => []
             end
    | _, _ => []
    end.
Proof.
  destruct (exportEnvironmentVariables_props host isAdmin reg) as (_ & Hquiet & _).
  apply file_writes_none in Hquiet. revert Hquiet.
  unfold exportButton, saveConfigToFile, Save, ioutil_WriteFile, emit,
    mbind, IO_bind, mret, IO_ret, result, trace.
  destruct (exportEnvironmentVariables host isAdmin reg) as [[[err|config] reg1] t1];
    cbn [fst snd]; intros Hquiet.
  { change (?a :: ?b :: t1 ++ ?c) with ([a; b] ++ t1 ++ c).
    by rewrite !file_writes_app, Hquiet. }
  destruct (save_dialog host) as [err|savePath].
  { destruct (String.eqb (Error err) "cancelled"); cbn [fst snd app];
      change (?a :: ?b :: t1 ++ ?c) with ([a; b] ++ t1 ++ c);
      by rewrite !file_writes_app, Hquiet. }
  destruct (String.eqb savePath "").
  { cbn [fst snd app]. change (?a :: ?b :: t1 ++ ?c) with ([a; b] ++ t1 ++ c).
    by rewrite !file_writes_app, Hquiet. }
  destruct (yaml_Marshal host config) as [err|yamlData].
  { cbn [fst snd app]. change (?a :: ?b :: t1 ++ ?c) with ([a; b] ++ t1 ++ c).
    by rewrite !file_writes_app, Hquiet. }
  destruct (write_file host (ensureYAMLExtension savePath) yamlData);
    cbn [fst snd app]; change (?a :: ?b :: t1 ++ ?c) with ([a; b] ++ t1 ++ c);
    by rewrite !file_writes_app, Hquiet.
Qed.

Lemma elem_of_file_writes path data t :
  WriteFile path data ∈ t ↔ WriteFile path data ∈ file_writes t.
Proof.
  unfold file_writes. rewrite list_elem_of_filter.
  split; [by intros H | by intros [_ H]].
Qed.

(** C9: every variable of the configuration that
    [exportEnvironmentVariables] returns has the operation "set", for
    any content of the store and with or without elevation; and the
    data an export run writes to a file is the rendering of such a
    configuration. *)
Theorem C9_export_emits_only_set host isAdmin reg :
  (∀ config,
     result (exportEnvironmentVariables host isAdmin reg) = inr config →
     all_set (UserVariables config) ∧ all_set (SystemVariables config))
  ∧ (∀ path data,
       WriteFile path data ∈ trace (exportButton host isAdmin reg) →
       ∃ config, yaml_Marshal host config = inr data
                 ∧ all_set (UserVariables config) ∧ all_set (SystemVariables config)).
Proof.
  destruct (exportEnvironmentVariables_props host isAdmin reg) as (Hset & _ & _).
  assert (Hconfig : ∀ config,
            result (exportEnvironmentVariables host isAdmin reg) = inr config →
            all_set (UserVariables config) ∧ all_set (SystemVariables config)).
  { intros config E. rewrite E in Hset. by apply Forall_app in Hset. }
  split; [done |].
  intros path data Hin. apply elem_of_file_writes in Hin.
  rewrite exportButton_writes in Hin.
  destruct (result (exportEnvironmentVariables host isAdmin reg)) as [err|config];
    [by apply elem_of_nil in Hin |].
  destruct (save_dialog host) as [err|savePath]; [by apply elem_of_nil in Hin |].
  destruct (String.eqb savePath ""); [by apply elem_of_nil in Hin |].
  destruct (yaml_Marshal host config) as [err|yamlData] eqn:Hm;
    [by apply elem_of_nil in Hin |].
  apply list_elem_of_singleton in Hin. injection Hin as -> ->.
  exists config. split; [done |]. by apply Hconfig.
Qed.

(** C10: the path an export run writes to is the path chosen in the
    save dialog, with ".yaml" appended when the chosen path does not
    end in ".yaml" or ".yml" (in any case of the letters) and unchanged
    when it does; so the written path always ends in a recognized
    extension and passes [isValidYAMLFile].  The rewrite comes before
    the write: the run writes no file at another path. *)
Theorem C10_export_path_extension :
  (∀ savePath,
     (¬ RecognizedExtension savePath → ensureYAMLExtension savePath = savePath +:+ ".yaml")
     ∧ (RecognizedExtension savePath → ensureYAMLExtension savePath = savePath)
     ∧ RecognizedExtension (ensureYAMLExtension savePath)
     ∧ isValidYAMLFile (ensureYAMLExtension savePath) = true)
  ∧ (∀ host isAdmin reg path data,
       WriteFile path data ∈ trace (exportButton host isAdmin reg) →
       ∃ savePath, save_dialog host = inr savePath
                   ∧ path = ensureYAMLExtension savePath
                   ∧ RecognizedExtension path)
  ∧ (∀ host isAdmin reg config savePath data,
       result (exportEnvironmentVariables host isAdmin reg) = inr config →
       save_dialog host = inr savePath → savePath ≠ "" →
       yaml_Marshal host config = inr data →
       file_writes (trace (exportButton host isAdmin reg))
       = [WriteFile (ensureYAMLExtension savePath) data]).
Proof.
  assert (Hvalid : ∀ savePath, RecognizedExtension (ensureYAMLExtension savePath)).
  { intros savePath. apply isValidYAMLFile_spec, ensureYAMLExtension_valid. }
  split; [| split].
  - intros savePath. repeat split; try done; try apply ensureYAMLExtension_valid.
    + intros Hno. unfold ensureYAMLExtension.
      rewrite <- negb_orb, <- isValidYAMLFile_HasSuffix.
      destruct (isValidYAMLFile savePath) eqn:E; [| done].
      by apply isValidYAMLFile_spec in E.
    + intros Hyes. unfold ensureYAMLExtension.
      rewrite <- negb_orb, <- isValidYAMLFile_HasSuffix.
      apply isValidYAMLFile_spec in Hyes. by rewrite Hyes.
  - intros host isAdmin reg path data Hin. apply elem_of_file_writes in Hin.
    rewrite exportButton_writes in Hin.
    destruct (result (exportEnvironmentVariables host isAdmin reg)) as [err|config];
      [by apply elem_of_nil in Hin |].
    destruct (save_dialog host) as [err|savePath]; [by apply elem_of_nil in Hin |].
    destruct (String.eqb savePath ""); [by apply elem_of_nil in Hin |].
    destruct (yaml_Marshal host config) as [err|yamlData];
      [by apply elem_of_nil in Hin |].
    apply list_elem_of_singleton in Hin. injection Hin as -> ->.
    exists savePath. by repeat split.
  - intros host isAdmin reg config savePath data Hex Hsave Hne Hm.
    rewrite exportButton_writes, Hex, Hsave, Hm.
    apply String.eqb_neq in Hne. by rewrite Hne.
Qed.

Lemma C9_export_emits_only_set_witness :
  all_set (UserVariables
             {| UserVariables := [Scenario.set_ "FOO" "2"]; SystemVariables := [] |}).
Proof.
  apply (C9_export_emits_only_set (Scenario.healthy Scenario.mixed) false
           (store (applyConfig (Scenario.healthy Scenario.mixed) false Scenario.mixed
                     Scenario.blank))).
  vm_compute. reflexivity.
Defined.

Lemma C10_export_path_extension_witness :
  ensureYAMLExtension "backup" = "backup.yaml"
  ∧ ensureYAMLExtension "backup.YML" = "backup.YML"
  ∧ file_writes (trace (exportButton (Scenario.healthy Scenario.mixed) false Scenario.blank))
    = [WriteFile "backup.yaml" "user_variables: []"].
Proof.
  destruct C10_export_path_extension as (Hpath & _ & Hwrite).
  split; [| split].
  - apply (Hpath "backup"). intros Hyes.
    apply isValidYAMLFile_spec in Hyes. discriminate Hyes.
  - apply (Hpath "backup.YML"). right. exists "backup", ".YML". split; reflexivity.
  - apply (Hwrite (Scenario.healthy Scenario.mixed) false Scenario.blank
             {| UserVariables := []; SystemVariables := [] |} "backup" "user_variables: []");
      try reflexivity. discriminate.
Defined.

(** * Further properties of the code *)

(** ** Counting the calls of a run *)

Section Counting.

Context (p : Event → bool).

Lemma filter_quiet t :
  Forall (λ e, p e = false) t → filter (λ e, p e = true) t = [].
Proof.
  induction 1 as [|e t He _ IH]; [done |].
  rewrite filter_cons_False; [done | congruence].
Qed.

Lemma loop_quiet host key vs reg :
  (∀ e, entry_event key e = true → p e = false) →
  filter (λ e, p e = true) (trace (forEach vs (applyVariable host key) reg)) = [].
Proof.
  intros Hp. apply filter_quiet. eapply Forall_impl; [apply loop_events |]. done.
Qed.

End Counting.







Lemma loop_excludes host key vs reg e :
  entry_event key e = false → e ∉ trace (forEach vs (applyVariable host key) reg).
Proof.
  intros He Hin. pose proof (loop_events host key vs reg) as Hall.
  rewrite Forall_forall in Hall. specialize (Hall e Hin). congruence.
Qed.

(** Splits a count over the parts of a trace; the loops of the applier
    contribute nothing to the counts used here. *)
Ltac count_calls :=
  unfold dialogs, opens, closes, broadcasts;
  rewrite ?filter_app, ?length_app;
  rewrite ?loop_quiet by (intros [] ?; done);
  cbn [length Nat.add].

Lemma valid_path_not_empty path : isValidYAMLFile path = true → String.eqb path "" = false.
Proof. intros Hv. destruct (String.eqb_spec path "") as [->|]; done. Qed.

(** X3: a selected file that cannot be read, or whose content does not
    parse, ends the apply action before the store is looked at: the run
    makes no registry call and no broadcast, leaves the store as it is,
    and shows the error with its cause. *)
Theorem applyEnvVars_file_errors_abort host isAdmin path reg :
  isValidYAMLFile path = true →
  let run := applyEnvVars host isAdmin path reg in
  (∀ err, read_file host path = inl err →
     Forall (λ e, target e = None ∧ is_broadcast e = false) (trace run)
     ∧ store run = reg
     ∧ ShowError (Errorf ("error reading YAML file " +:+ path +:+ ": ") err) ∈ trace run)
  ∧ (∀ yamlFile err,
       read_file host path = inr yamlFile → yaml_Unmarshal host yamlFile = inl err →
       Forall (λ e, target e = None ∧ is_broadcast e = false) (trace run)
       ∧ store run = reg
       ∧ ShowError (Errorf "error unmarshaling YAML: " err) ∈ trace run).
Proof.
  intros Hvalid run. subst run.
  rewrite applyEnvVars_run, (valid_path_not_empty _ Hvalid), Hvalid. simpl negb. cbv iota.
  split.
  - intros err ->. cbn [trace store fst snd app]. split; [by repeat constructor |].
    split; [done |]. set_solver.
  - intros yamlFile err -> ->. cbn [trace store fst snd app].
    split; [by repeat constructor |]. split; [done |]. set_solver.
Qed.

Lemma applyEnvVars_file_errors_abort_witness :
  store (applyEnvVars Desk.unreadable true "cfg.yaml" Desk.stocked) = Desk.stocked.
Proof.
  destruct (applyEnvVars_file_errors_abort Desk.unreadable true "cfg.yaml" Desk.stocked)
    as (Hread & _); [reflexivity |].
  apply (Hread Scenario.accessDenied). reflexivity.
Defined.

Lemma notification_dialogs host : dialogs (notification host) = 1.
Proof. unfold notification. by destruct (send_message_timeout host). Qed.

Lemma applyConfig_dialogs host isAdmin config reg :
  dialogs (trace (applyConfig host isAdmin config reg)) = 1.
Proof.
  rewrite applyConfig_run.
  destruct (open_key host CURRENT_USER SET_VALUE) as [err|]; [done |].
  pose proof (notification_dialogs host) as Hn. unfold dialogs in Hn.
  destruct isAdmin;
    [destruct (open_key host LOCAL_MACHINE SET_VALUE) as [err|] |
     destruct (0 <? length (SystemVariables config))%nat];
    cbn [trace snd]; count_calls; rewrite ?Hn; simpl; lia.
Qed.

(** X4: every run of the apply action shows exactly one dialog, be it
    the request to select a file, an error, the notice that system
    variables were ignored, or the success message. *)
Theorem applyEnvVars_one_dialog host isAdmin path reg :
  dialogs (trace (applyEnvVars host isAdmin path reg)) = 1.
Proof.
  rewrite applyEnvVars_run.
  destruct (String.eqb path ""); [done |].
  destruct (negb (isValidYAMLFile path)); [done |].
  destruct (read_file host path) as [err|yamlFile]; [done |].
  destruct (yaml_Unmarshal host yamlFile) as [err|config]; [done |].
  cbn [trace snd]. pose proof (applyConfig_dialogs host isAdmin config reg) as Hd.
  unfold dialogs in *. rewrite filter_app, length_app, Hd. done.
Qed.

(** X5: the "Success" dialog of an apply run is shown exactly when the
    user location opened, the system scope was neither skipped for lack
    of privilege nor failed to open, and the broadcast succeeded.  What
    the store answered for the single entries plays no part: a run with
    failed entries still ends in "Success". *)
Theorem applyConfig_success_dialog host isAdmin config reg :
  success ∈ trace (applyConfig host isAdmin config reg)
  ↔ open_key host CURRENT_USER SET_VALUE = None
    ∧ (if isAdmin then open_key host LOCAL_MACHINE SET_VALUE = None
       else SystemVariables config = [])
    ∧ send_message_timeout host = None.
Proof.
  rewrite applyConfig_run. unfold notification, aborted, skipped.
  pose proof (λ h vs r, loop_excludes host h vs r success eq_refl) as Hloop.
  destruct (open_key host CURRENT_USER SET_VALUE) as [err|];
    [| destruct isAdmin;
       [destruct (open_key host LOCAL_MACHINE SET_VALUE) as [err|] |
        destruct (SystemVariables config) as [|v vs]];
       try destruct (send_message_timeout host) as [err|]];
    cbn [length Nat.ltb Nat.leb trace snd];
    try (split; [done | intros _; unfold success; set_solver]);
    (split; [| intros (? & ? & ?); done]);
    intros Hin; contradict Hin;
    rewrite ?not_elem_of_app, ?not_elem_of_cons;
    repeat split; try done; try apply Hloop; apply not_elem_of_nil.
Qed.

Lemma applyConfig_success_dialog_witness :
  success ∈ trace (applyConfig (Scenario.refusing "FOO" Scenario.mixed) true
                     Scenario.mixed Scenario.blank).
Proof.
  apply (applyConfig_success_dialog (Scenario.refusing "FOO" Scenario.mixed) true
           Scenario.mixed Scenario.blank).
  repeat split.
Defined.

(** X6: what an apply run leaves in the store does not depend on the
    answer of the broadcast: a run whose SendMessageTimeoutW fails
    leaves the same store, with the same outcome lines, as the run whose
    broadcast succeeds; nothing is undone. *)
Theorem applyConfig_store_ignores_broadcast host answer isAdmin config reg :
  store (applyConfig (with_broadcast_answer host answer) isAdmin config reg)
  = store (applyConfig host isAdmin config reg)
  ∧ outcomes (trace (applyConfig (with_broadcast_answer host answer) isAdmin config reg))
    = outcomes (trace (applyConfig host isAdmin config reg)).
Proof.
  rewrite !applyConfig_run.
  change (open_key (with_broadcast_answer host answer)) with (open_key host).
  change (applyVariable (with_broadcast_answer host answer)) with (applyVariable host).
  destruct (open_key host CURRENT_USER SET_VALUE) as [err|]; [done |].
  destruct isAdmin;
    [destruct (open_key host LOCAL_MACHINE SET_VALUE) as [err|] |
     destruct (0 <? length (SystemVariables config))%nat];
    cbn [trace store fst snd]; (split; [done |]);
    by rewrite ?outcomes_app, ?notification_outcomes.
Qed.

(** X7: an apply run opens each location at most once, and closes every
    key it opened: for each location the run has as many RegCloseKey
    calls as RegOpenKey calls when the location opens, and none when it
    does not. *)
Theorem applyEnvVars_closes_what_it_opens host isAdmin path reg h :
  let t := trace (applyEnvVars host isAdmin path reg) in
  (opens h t ≤ 1)%nat
  ∧ closes h t = match open_key host h SET_VALUE with
                 | Some _ => 0
                 | None => opens h t
                 end.
Proof.
  intros t. subst t. rewrite applyEnvVars_run.
  destruct (String.eqb path "");
    [unfold opens, closes; simpl; destruct (open_key host h SET_VALUE); split; (lia || reflexivity) |].
  destruct (negb (isValidYAMLFile path));
    [unfold opens, closes; simpl; destruct (open_key host h SET_VALUE); split; (lia || reflexivity) |].
  destruct (read_file host path) as [err|yamlFile];
    [unfold opens, closes; simpl; destruct (open_key host h SET_VALUE); split; (lia || reflexivity) |].
  destruct (yaml_Unmarshal host yamlFile) as [err|config];
    [unfold opens, closes; simpl; destruct (open_key host h SET_VALUE); split; (lia || reflexivity) |].
  cbn [trace snd]. rewrite applyConfig_run. unfold notification, aborted, skipped.
  destruct (open_key host CURRENT_USER SET_VALUE) as [err|] eqn:Huser;
    [| destruct isAdmin;
       [destruct (open_key host LOCAL_MACHINE SET_VALUE) as [err|] eqn:Hsystem |
        destruct (0 <? length (SystemVariables config))%nat];
       try destruct (send_message_timeout host) as [err|]];
    cbn [trace snd]; destruct h; rewrite ?Huser, ?Hsystem; count_calls;
    try (split; [simpl; lia | reflexivity]);
    destruct (open_key host LOCAL_MACHINE SET_VALUE);
    split; try reflexivity; simpl; lia.
Qed.

(** ** Preview *)

(** X8: the preview action only reads: it leaves the store as it is,
    makes no registry call, no broadcast and no file write, and ends by
    showing exactly one thing, a dialog or the preview window. *)
Theorem previewChanges_only_reads host isAdmin path reg :
  let run := previewChanges host isAdmin path reg in
  store run = reg
  ∧ Forall (λ e, target e = None ∧ is_broadcast e = false ∧ is_file_write e = false)
           (trace run)
  ∧ dialogs (trace run) + length (filter (λ e, is_window e = true) (trace run)) = 1.
Proof.
  intros run. subst run. unfold previewChanges, showPreviewWindow.
  destruct (String.eqb path ""); [by repeat constructor |].
  destruct (negb (isValidYAMLFile path)); [by repeat constructor |].
  unfold ioutil_ReadFile, emit, mbind, IO_bind, store, trace, dialogs.
  destruct (read_file host path) as [err|yamlFile]; [by repeat constructor |].
  destruct (yaml_Unmarshal host yamlFile) as [err|config]; by repeat constructor.
Qed.

Lemma previewEntry_line prefix v :
  prefix = "  " ∨ prefix = "  [IGNORED] " →
  previewEntry prefix v ≠ previewNothing
  ∧ previewEntry prefix v ≠ previewWarning
  ∧ previewEntry prefix v ≠ ""
  ∧ previewEntry prefix v ≠ "USER ENVIRONMENT VARIABLES:"
  ∧ previewEntry prefix v ≠ "SYSTEM ENVIRONMENT VARIABLES:"
  ∧ previewEntry prefix v ≠ "Note: After applying changes, a WM_SETTINGCHANGE message will be"
  ∧ previewEntry prefix v ≠ "broadcast to notify other applications of the environment changes.".
Proof.
  unfold previewEntry, previewNothing, previewWarning.
  intros [-> | ->];
    destruct (String.eqb (Operation v) "set"), (String.eqb (Operation v) "delete");
    by repeat split.
Qed.

Lemma previewEntries_exclude prefix vs line :
  (∀ v, previewEntry prefix v ≠ line) → line ∉ map (previewEntry prefix) vs.
Proof.
  intros Hne Hin. apply list_elem_of_In, in_map_iff in Hin as (v & Hv & _).
  by apply (Hne v).
Qed.

Lemma previewEntries_not_general prefix vs line :
  prefix = "  " ∨ prefix = "  [IGNORED] " →
  line = previewNothing ∨ line = previewWarning →
  line ∉ map (previewEntry prefix) vs.
Proof.
  intros Hp Hl. apply previewEntries_exclude. intros v.
  destruct (previewEntry_line prefix v Hp) as (? & ? & _). by destruct Hl as [-> | ->].
Qed.

Lemma previewContent_user_part config line :
  line = previewNothing ∨ line = previewWarning →
  line ∉ (if (0 <? length (UserVariables config))%nat
          then ["USER ENVIRONMENT VARIABLES:"; ""]
               ++ map (previewEntry "  ") (UserVariables config) ++ [""]
          else []).
Proof.
  intros Hl. destruct (0 <? length (UserVariables config))%nat; [| apply not_elem_of_nil].
  rewrite !not_elem_of_app, !not_elem_of_cons.
  repeat split; try (by destruct Hl as [-> | ->]); try apply not_elem_of_nil.
  apply previewEntries_not_general; auto.
Qed.

Lemma previewContent_note line :
  line = previewNothing ∨ line = previewWarning →
  line ∉ [""; "Note: After applying changes, a WM_SETTINGCHANGE message will be";
          "broadcast to notify other applications of the environment changes."].
Proof.
  intros Hl. rewrite !not_elem_of_cons.
  repeat split; try (by destruct Hl as [-> | ->]); apply not_elem_of_nil.
Qed.

(** X9: the preview says that nothing was found exactly when both lists
    of the configuration are empty, and carries the warning that system
    variables will be ignored exactly when the process is not elevated
    and the system list is not empty, which is when the apply action
    skips the system scope.  Every variable of either list has its line
    in the preview, the system ones marked "[IGNORED]" without
    elevation. *)
Theorem previewContent_lines config isAdmin :
  (previewNothing ∈ previewContent config isAdmin
   ↔ UserVariables config = [] ∧ SystemVariables config = [])
  ∧ (previewWarning ∈ previewContent config isAdmin
     ↔ isAdmin = false ∧ SystemVariables config ≠ [])
  ∧ (∀ v, v ∈ UserVariables config →
       previewEntry "  " v ∈ previewContent config isAdmin)
  ∧ (∀ v, v ∈ SystemVariables config →
       previewEntry (if isAdmin then "  " else "  [IGNORED] ") v
       ∈ previewContent config isAdmin).
Proof.
  assert (Hin : ∀ prefix (v : EnvVar) vs,
            v ∈ vs → previewEntry prefix v ∈ map (previewEntry prefix) vs).
  { intros prefix v vs Hv. apply list_elem_of_In, in_map, list_elem_of_In, Hv. }
  pose proof (previewContent_user_part config previewNothing (or_introl eq_refl)) as Hun.
  pose proof (previewContent_user_part config previewWarning (or_intror eq_refl)) as Huw.
  pose proof (previewContent_note previewNothing (or_introl eq_refl)) as Hnn.
  pose proof (previewContent_note previewWarning (or_intror eq_refl)) as Hnw.
  unfold previewContent. rewrite !elem_of_app.
  split; [| split; [| split]].
  - split.
    + intros [H|[H|[H|H]]]; try done.
      * contradict H. destruct (SystemVariables config) as [|s ss];
          cbn [length Nat.ltb Nat.leb].
        { apply not_elem_of_nil. }
        rewrite !not_elem_of_app, !not_elem_of_cons.
        repeat split; try done; try apply not_elem_of_nil.
        -- destruct (negb isAdmin); [| apply not_elem_of_nil].
           rewrite not_elem_of_cons. split; [done | apply not_elem_of_nil].
        -- apply (previewEntries_not_general _ (s :: ss)); [destruct isAdmin |]; auto.
      * destruct (UserVariables config), (SystemVariables config); simpl in H; try done;
          by apply elem_of_nil in H.
    + intros [-> ->]. right. right. left. simpl. by left.
  - split.
    + intros [H|[H|[H|H]]]; try done.
      * destruct (SystemVariables config) as [|s ss] eqn:Hs;
          cbn [length Nat.ltb Nat.leb] in H.
        { by apply elem_of_nil in H. }
        destruct isAdmin; [| done]. contradict H. cbn [negb].
        rewrite !not_elem_of_app, !not_elem_of_cons.
        repeat split; try done; try apply not_elem_of_nil.
        apply (previewEntries_not_general _ (s :: ss)); auto.
      * contradict H.
        destruct (_ && _); [| apply not_elem_of_nil].
        rewrite not_elem_of_cons. split; [done | apply not_elem_of_nil].
    + intros [-> Hs]. right. left.
      destruct (SystemVariables config) as [|s ss]; [done |]. simpl.
      right. by left.
  - intros v Hv. rewrite !elem_of_app. left.
    destruct (UserVariables config) as [|u us] eqn:Hu.
    { by apply elem_of_nil in Hv. }
    cbn [length Nat.ltb Nat.leb]. rewrite !elem_of_app. right. left.
    by apply (Hin _ _ (u :: us)).
  - intros v Hv. rewrite !elem_of_app. right. left.
    destruct (SystemVariables config) as [|s ss] eqn:Hs.
    { by apply elem_of_nil in Hv. }
    cbn [length Nat.ltb Nat.leb]. rewrite !elem_of_app. right. right. right. left.
    destruct isAdmin; by apply (Hin _ _ (s :: ss)).
Qed.

Lemma previewContent_lines_witness :
  previewEntry "  [IGNORED] " (Scenario.set_ "JAVA_HOME" "C:\jdk-17")
  ∈ previewContent Scenario.mixed false
  ∧ previewWarning ∈ previewContent Scenario.mixed false.
Proof.
  destruct (previewContent_lines Scenario.mixed false) as (_ & Hwarn & _ & Hsystem).
  split.
  - apply (Hsystem (Scenario.set_ "JAVA_HOME" "C:\jdk-17")). by left.
  - apply Hwarn. split; [reflexivity | discriminate].
Defined.

(** ** Export *)

Section Reading.

Context (host : Host).

Lemma readValues_result key names variables reg :
  result (readValues host key names variables reg)
  = variables ++ omap (exported host reg key) names.
Proof.
  revert variables. induction names as [|name names IH]; intros variables.
  - simpl. by rewrite app_nil_r.
  - simpl readValues. rewrite result_bind.
    unfold registry.GetStringValue. cbn [result store fst snd].
    change (omap ?f (name :: names))
      with (match f name with Some y => y :: omap f names | None => omap f names end).
    unfold exported at 1.
    destruct (values reg key !! name) as [value|].
    + destruct (get_string_value host key name) as [err|].
      * rewrite result_bind. cbn [emit result store fst snd]. apply IH.
      * rewrite IH. by rewrite <- app_assoc.
    + rewrite result_bind. cbn [emit result store fst snd]. apply IH.
Qed.

Lemma readValues_events (P : Event → Prop) key names variables reg :
  (∀ name, P (RegQueryValue key name)) →
  (∀ name err, P (Stdout (ReadWarning name err))) →
  Forall P (trace (readValues host key names variables reg)).
Proof.
  intros Hq Hw. revert variables.
  induction names as [|name names IH]; intros variables; [constructor |].
  simpl readValues. rewrite trace_bind.
  unfold registry.GetStringValue. cbn [result store trace fst snd].
  apply Forall_cons. split; [apply Hq |].
  destruct (values reg key !! name) as [value|];
    [destruct (get_string_value host key name) as [err|] |];
    rewrite ?trace_bind; cbn [emit result store trace fst snd app];
    try apply Forall_cons; try split; try apply Hw; apply IH.
Qed.

(** The run of [readVariablesFromRegistry], case by case. *)
Lemma readVariablesFromRegistry_run hive path reg :
  readVariablesFromRegistry host hive path reg =
    match open_key host hive READ with
    | Some err =>
        (inl (Errorf ("failed to open registry key " +:+ hiveName hive +:+ "\"
                      +:+ path +:+ " for reading: ") err),
         reg, [RegOpenKey hive path READ])
    | None =>
        match read_value_names host hive with
        | Some err =>
            (inl (Errorf "failed to read value names from registry key: " err),
             reg, [RegOpenKey hive path READ; RegEnumValues hive; RegCloseKey hive])
        | None =>
            let read := readValues host hive (map_to_list (values reg hive)).*1 [] reg in
            (inr (omap (exported host reg hive) (map_to_list (values reg hive)).*1),
             reg,
             [RegOpenKey hive path READ; RegEnumValues hive]
             ++ trace read ++ [RegCloseKey hive])
        end
    end.
Proof.
  pose proof (readValues_result hive (map_to_list (values reg hive)).*1 [] reg) as Hres.
  destruct (readValues_props host hive (map_to_list (values reg hive)).*1 [] reg)
    as (_ & _ & Hstore); [constructor |].
  revert Hres Hstore.
  unfold readVariablesFromRegistry, registry.OpenKey, registry.ReadValueNames,
    registry.Close, emit, mbind, IO_bind, mret, IO_ret, result, store, trace.
  destruct (open_key host hive READ) as [err|]; [done |].
  destruct (read_value_names host hive) as [err|]; [done |].
  destruct (readValues host hive (map_to_list (values reg hive)).*1 [] reg)
    as [[vs reg1] t1].
  cbn [fst snd app]. by intros -> ->.
Qed.

(** The run of [exportEnvironmentVariables], case by case. *)
Lemma exportEnvironmentVariables_run isAdmin reg :
  exportEnvironmentVariables host isAdmin reg =
    let user := readVariablesFromRegistry host CURRENT_USER userPath reg in
    match result user with
    | inl err =>
        (inl (Errorf "failed to read user environment variables: " err), reg, trace user)
    | inr variables =>
        if isAdmin then
          let system := readVariablesFromRegistry host LOCAL_MACHINE systemPath reg in
          match result system with
          | inl err =>
              (inl (Errorf "failed to read system environment variables: " err), reg,
               trace user ++ trace system)
          | inr variables' =>
              (inr {| UserVariables := variables; SystemVariables := variables' |}, reg,
               trace user ++ trace system)
          end
        else
          (inr {| UserVariables := variables; SystemVariables := [] |}, reg,
           trace user ++ [Stdout SkippingSystemExport])
    end.
Proof.
  destruct (readVariablesFromRegistry_props host CURRENT_USER userPath reg)
    as (_ & _ & Huser).
  destruct (readVariablesFromRegistry_props host LOCAL_MACHINE systemPath reg)
    as (_ & _ & Hsystem).
  revert Huser Hsystem.
  unfold exportEnvironmentVariables, emit, mbind, IO_bind, mret, IO_ret,
    result, store, trace.
  destruct (readVariablesFromRegistry host CURRENT_USER userPath reg)
    as [[[err|user] reg1] t1]; cbn [fst snd]; intros -> Hsystem.
  { by rewrite app_nil_r. }
  destruct isAdmin; [| done]. revert Hsystem.
  destruct (readVariablesFromRegistry host LOCAL_MACHINE systemPath reg)
    as [[[err|system] reg2] t2]; cbn [fst snd]; intros ->; by rewrite app_nil_r.
Qed.

End Reading.

Section Exported.

Context (host : Host).

Lemma readVariablesFromRegistry_events isAdmin hive path reg :
  isAdmin || bool_decide (hive = CURRENT_USER) = true →
  Forall (λ e, export_event isAdmin e = true)
         (trace (readVariablesFromRegistry host hive path reg)).
Proof.
  intros Hallowed. rewrite readVariablesFromRegistry_run.
  destruct (open_key host hive READ) as [err|]; [by repeat constructor |].
  destruct (read_value_names host hive) as [err|]; [by repeat constructor |].
  cbn [trace snd]. rewrite !Forall_app. repeat split; try by repeat constructor.
  by apply readValues_events.
Qed.

Lemma exportEnvironmentVariables_events isAdmin reg :
  Forall (λ e, export_event isAdmin e = true)
         (trace (exportEnvironmentVariables host isAdmin reg)).
Proof.
  rewrite exportEnvironmentVariables_run.
  pose proof (readVariablesFromRegistry_events isAdmin CURRENT_USER userPath reg) as Hu.
  rewrite orb_true_r in Hu. specialize (Hu eq_refl). cbv zeta.
  destruct (result (readVariablesFromRegistry host CURRENT_USER userPath reg));
    [done |].
  destruct isAdmin.
  - pose proof (readVariablesFromRegistry_events true LOCAL_MACHINE systemPath reg eq_refl).
    destruct (result (readVariablesFromRegistry host LOCAL_MACHINE systemPath reg));
      cbn [trace snd]; by apply Forall_app.
  - cbn [trace snd]. apply Forall_app. split; [done | by repeat constructor].
Qed.

Lemma export_event_reads isAdmin e :
  export_event isAdmin e = true →
  mutation e = None ∧ is_broadcast e = false ∧ is_file_write e = false
  ∧ is_dialog e = false
  ∧ (isAdmin = false → target e ≠ Some LOCAL_MACHINE).
Proof.
  destruct e as [l| | | | | | | | |h ? a|h|h ? ?|h ?|h|h ?|]; try done;
    try (by destruct l); try destruct a; try done; simpl; intros He;
    repeat split; try done; intros -> [= ->]; done.
Qed.

(** The run of the export handler: the registry is read, and what
    follows makes no registry call. *)
Lemma exportButton_run isAdmin reg :
  ∃ tail,
    exportButton host isAdmin reg
    = (tt, reg,
       [SetText "Exporting variables... Please wait."; Refresh]
       ++ trace (exportEnvironmentVariables host isAdmin reg) ++ tail)
    ∧ Forall (λ e, target e = None ∧ is_broadcast e = false) tail
    ∧ (dialogs tail ≤ 1)%nat
    ∧ (SaveDialog ∈ tail
       → ∃ config, result (exportEnvironmentVariables host isAdmin reg) = inr config).
Proof.
  destruct (exportEnvironmentVariables_props host isAdmin reg) as (_ & _ & Hstore).
  revert Hstore.
  unfold exportButton, saveConfigToFile, Save, ioutil_WriteFile, emit,
    mbind, IO_bind, mret, IO_ret, result, store, trace.
  destruct (exportEnvironmentVariables host isAdmin reg) as [[[err|config] reg1] t1];
    cbn [fst snd]; intros ->.
  { eexists. split; [reflexivity |]. split; [by repeat constructor |].
    split; [unfold dialogs; simpl; lia |]. intros H. contradict H.
    cbn [app]. rewrite ?not_elem_of_app, ?not_elem_of_cons.
    repeat split; try done; apply not_elem_of_nil. }
  destruct (save_dialog host) as [err|savePath].
  { destruct (String.eqb (Error err) "cancelled"); cbn [fst snd app];
      (eexists; split; [reflexivity |]; split; [by repeat constructor |];
       split; [unfold dialogs; simpl; lia | by eauto]). }
  destruct (String.eqb savePath "").
  { cbn [fst snd app]. eexists. split; [reflexivity |]. split; [by repeat constructor |].
    split; [unfold dialogs; simpl; lia | by eauto]. }
  destruct (yaml_Marshal host config) as [err|yamlData].
  { cbn [fst snd app]. eexists. split; [reflexivity |]. split; [by repeat constructor |].
    split; [unfold dialogs; simpl; lia | by eauto]. }
  destruct (write_file host (ensureYAMLExtension savePath) yamlData);
    cbn [fst snd app]; (eexists; split; [reflexivity |]; split; [by repeat constructor |];
      split; [unfold dialogs; simpl; lia | by eauto]).
Qed.

End Exported.

Lemma exportButton_calls host isAdmin reg :
  Forall (λ e, mutation e = None ∧ is_broadcast e = false
               ∧ (isAdmin = false → target e ≠ Some LOCAL_MACHINE))
         (trace (exportButton host isAdmin reg)).
Proof.
  destruct (exportButton_run host isAdmin reg) as (tail & -> & Htail & _).
  pose proof (exportEnvironmentVariables_events host isAdmin reg) as Hread.
  cbn [trace snd]. rewrite !Forall_app. repeat split; [by repeat constructor | |].
  - eapply Forall_impl; [exact Hread |]. intros e He.
    by apply export_event_reads in He as (? & ? & _ & _ & ?).
  - eapply Forall_impl; [exact Htail |]. intros e [Ht Hb].
    repeat split; [by destruct e | done | by rewrite Ht].
Qed.

(** X10: an export run never changes the store: it makes no call that
    writes or removes a registry value and no broadcast, and the store
    after it is the store before it.  Without elevation it makes no
    registry call on the system location at all. *)
Theorem exportButton_reads_only host isAdmin reg :
  let run := exportButton host isAdmin reg in
  store run = reg
  ∧ Forall (λ e, mutation e = None ∧ is_broadcast e = false) (trace run)
  ∧ (isAdmin = false → Forall (λ e, target e ≠ Some LOCAL_MACHINE) (trace run)).
Proof.
  intros run. subst run. pose proof (exportButton_calls host isAdmin reg) as Hcalls.
  split; [| split].
  - by destruct (exportButton_run host isAdmin reg) as (tail & -> & _).
  - eapply Forall_impl; [exact Hcalls |]. by intros e (? & ? & _).
  - intros Hnot. eapply Forall_impl; [exact Hcalls |]. intros e (_ & _ & He). by apply He.
Qed.

Lemma exportButton_reads_only_witness :
  Forall (λ e, target e ≠ Some LOCAL_MACHINE)
         (trace (exportButton (Scenario.healthy Scenario.mixed) false Desk.stocked)).
Proof.
  apply (exportButton_reads_only (Scenario.healthy Scenario.mixed) false Desk.stocked).
  reflexivity.
Defined.

Section Mirror.

Context (host : Host) (reg : Registry) (key : Hive).

Lemma exported_Some name v :
  exported host reg key name = Some v →
  v = {| Name := name; Value := Value v; Operation := "set" |}
  ∧ values reg key !! name = Some (Value v).
Proof.
  unfold exported. destruct (values reg key !! name) as [value|]; [| done].
  destruct (get_string_value host key name); [done |]. by intros [= <-].
Qed.

Lemma exported_lookup (names : list string) v :
  v ∈ omap (exported host reg key) names →
  values reg key !! Name v = Some (Value v) ∧ Operation v = "set" ∧ Name v ∈ names.
Proof.
  intros (name & Hname & He)%list_elem_of_omap.
  apply exported_Some in He as [-> Hv]. by repeat split.
Qed.

Lemma exported_NoDup (names : list string) :
  NoDup names → NoDup (Name <$> omap (exported host reg key) names).
Proof.
  induction 1 as [|name names Hfresh _ IH]; [constructor |].
  change (omap ?f (name :: names))
    with (match f name with Some y => y :: omap f names | None => omap f names end).
  destruct (exported host reg key name) as [v|] eqn:He; [| done].
  apply exported_Some in He as [Hv _]. rewrite fmap_cons. constructor; [| done].
  intros (w & Hw & Hin)%list_elem_of_fmap.
  apply exported_lookup in Hin as (_ & _ & Hin).
  rewrite Hv in Hw. simpl in Hw. by rewrite Hw in Hfresh.
Qed.

Lemma exported_complete name value :
  values reg key !! name = Some value →
  get_string_value host key name = None →
  {| Name := name; Value := value; Operation := "set" |}
  ∈ omap (exported host reg key) (map_to_list (values reg key)).*1.
Proof.
  intros Hv Hg. apply list_elem_of_omap. exists name. split.
  - apply list_elem_of_fmap. exists (name, value). split; [done |].
    by apply elem_of_map_to_list.
  - unfold exported. by rewrite Hv, Hg.
Qed.

End Mirror.

Lemma exportEnvironmentVariables_entries host isAdmin reg config h :
  result (exportEnvironmentVariables host isAdmin reg) = inr config →
  entries config h
  = if isAdmin || bool_decide (h = CURRENT_USER)
    then omap (exported host reg h) (map_to_list (values reg h)).*1
    else [].
Proof.
  rewrite exportEnvironmentVariables_run, !readVariablesFromRegistry_run. cbv zeta.
  destruct (open_key host CURRENT_USER READ); [done |].
  destruct (read_value_names host CURRENT_USER); [done |].
  cbn [result fst]. destruct isAdmin.
  - destruct (open_key host LOCAL_MACHINE READ); [done |].
    destruct (read_value_names host LOCAL_MACHINE); [done |].
    cbn [result fst]. intros [= <-]. by destruct h.
  - cbn [result fst]. intros [= <-]. by destruct h.
Qed.

(** X11: what is exported mirrors the store.  Every exported variable
    carries the value the store holds under its name; no name is
    exported twice in a list; without elevation the system list is
    empty; and every value of a location that is read (the user
    location, and the system location when elevated) is exported
    unless reading it fails. *)
Theorem exportEnvironmentVariables_mirrors_store host isAdmin reg config :
  result (exportEnvironmentVariables host isAdmin reg) = inr config →
  (∀ h v, v ∈ entries config h → values reg h !! Name v = Some (Value v))
  ∧ (∀ h, NoDup (Name <$> entries config h))
  ∧ (isAdmin = false → SystemVariables config = [])
  ∧ (∀ h name value,
       isAdmin = true ∨ h = CURRENT_USER →
       values reg h !! name = Some value →
       get_string_value host h name = None →
       {| Name := name; Value := value; Operation := "set" |} ∈ entries config h).
Proof.
  intros Hexport.
  pose proof (λ h, exportEnvironmentVariables_entries host isAdmin reg config h Hexport)
    as Hentries.
  split; [| split; [| split]].
  - intros h v. rewrite Hentries.
    destruct (isAdmin || bool_decide (h = CURRENT_USER)).
    + intros Hv. by apply exported_lookup in Hv as (? & _).
    + intros Hv. by apply elem_of_nil in Hv.
  - intros h. rewrite Hentries.
    destruct (isAdmin || bool_decide (h = CURRENT_USER)); [| constructor].
    apply exported_NoDup, NoDup_fst_map_to_list.
  - intros ->. apply (Hentries LOCAL_MACHINE).
  - intros h name value Hread Hv Hg. rewrite Hentries.
    replace (isAdmin || bool_decide (h = CURRENT_USER)) with true.
    + by apply exported_complete.
    + destruct Hread as [-> | ->]; [done | by rewrite orb_true_r].
Qed.

Lemma exportEnvironmentVariables_mirrors_store_witness :
  Scenario.set_ "NODE_ENV" "development"
  ∈ UserVariables
      {| UserVariables := [Scenario.set_ "GOPATH" "C:\go";
                           Scenario.set_ "NODE_ENV" "development"];
         SystemVariables := [] |}.
Proof.
  destruct (exportEnvironmentVariables_mirrors_store (Scenario.healthy Scenario.mixed)
              false Desk.stocked
              {| UserVariables := [Scenario.set_ "GOPATH" "C:\go";
                                   Scenario.set_ "NODE_ENV" "development"];
                 SystemVariables := [] |})
    as (_ & _ & _ & Hall).
  - vm_compute. reflexivity.
  - apply (Hall CURRENT_USER "NODE_ENV" "development").
    + by right.
    + vm_compute. reflexivity.
    + reflexivity.
Defined.




(** X13: an export run writes at most one file, and none unless a path
    was chosen: none when the save dialog fails or is cancelled, none
    when the chosen path is empty, none when the configuration does not
    marshal.  When reading the registry fails the save dialog is not
    even opened. *)
Theorem exportButton_writes_only_when_saved host isAdmin reg :
  let t := trace (exportButton host isAdmin reg) in
  (length (file_writes t) ≤ 1)%nat
  ∧ (∀ err, save_dialog host = inl err → file_writes t = [])
  ∧ (save_dialog host = inr "" → file_writes t = [])
  ∧ (∀ config err,
       result (exportEnvironmentVariables host isAdmin reg) = inr config →
       yaml_Marshal host config = inl err → file_writes t = [])
  ∧ (∀ err,
       result (exportEnvironmentVariables host isAdmin reg) = inl err →
       file_writes t = [] ∧ SaveDialog ∉ t).
Proof.
  intros t. subst t. rewrite exportButton_writes.
  split; [| split; [| split; [| split]]].
  - destruct (result (exportEnvironmentVariables host isAdmin reg)) as [err|config];
      [simpl; lia |].
    destruct (save_dialog host) as [err|savePath]; [simpl; lia |].
    destruct (String.eqb savePath ""); [simpl; lia |].
    destruct (yaml_Marshal host config); simpl; lia.
  - intros err ->. by destruct (result (exportEnvironmentVariables host isAdmin reg)).
  - intros ->. by destruct (result (exportEnvironmentVariables host isAdmin reg)).
  - intros config err -> ->. destruct (save_dialog host) as [|savePath]; [done |].
    by destruct (String.eqb savePath "").
  - intros err Hex. rewrite Hex. split; [done |].
    destruct (exportButton_run host isAdmin reg) as (tail & -> & _ & _ & Hsave).
    cbn [trace snd]. rewrite !not_elem_of_app, !not_elem_of_cons.
    repeat split; try done; try apply not_elem_of_nil.
    + intros Hin.
      pose proof (exportEnvironmentVariables_events host isAdmin reg) as Hread.
      rewrite Forall_forall in Hread. by specialize (Hread _ Hin).
    + intros Hin. destruct (Hsave Hin) as [config Hconfig]. congruence.
Qed.

Lemma exportButton_writes_only_when_saved_witness :
  file_writes (trace (exportButton (Scenario.locked CURRENT_USER Scenario.mixed) true
                        Desk.stocked)) = [].
Proof.
  destruct (exportButton_writes_only_when_saved
              (Scenario.locked CURRENT_USER Scenario.mixed) true Desk.stocked)
    as (_ & _ & _ & _ & Hfail).
  eapply Hfail. reflexivity.
Defined.

Lemma readVariablesFromRegistry_closes host hive path reg h :
  let t := trace (readVariablesFromRegistry host hive path reg) in
  opens h t = (if bool_decide (hive = h) then 1 else 0)
  ∧ closes h t = match open_key host hive READ with
                 | Some _ => 0
                 | None => if bool_decide (hive = h) then 1 else 0
                 end.
Proof.
  intros t. subst t. rewrite readVariablesFromRegistry_run.
  assert (Hquiet : ∀ names,
            filter (λ e, is_open h e = true) (trace (readValues host hive names [] reg)) = []
            ∧ filter (λ e, is_close h e = true)
                (trace (readValues host hive names [] reg)) = []).
  { intros names. split; apply filter_quiet; by apply readValues_events. }
  destruct (open_key host hive READ) as [err|];
    [| destruct (read_value_names host hive) as [err|]];
    cbn [trace snd]; unfold opens, closes;
    rewrite ?filter_app, ?length_app, ?(proj1 (Hquiet _)), ?(proj2 (Hquiet _));
    by destruct hive, h.
Qed.

(** X14: reading the registry for an export opens each location at most
    once and closes every key it opened, also when the value names
    cannot be enumerated or a value cannot be read; a location that
    does not open is not closed. *)
Theorem exportEnvironmentVariables_closes_what_it_opens host isAdmin reg h :
  let t := trace (exportEnvironmentVariables host isAdmin reg) in
  (opens h t ≤ 1)%nat
  ∧ closes h t = match open_key host h READ with
                 | Some _ => 0
                 | None => opens h t
                 end.
Proof.
  intros t. subst t. rewrite exportEnvironmentVariables_run. cbv zeta.
  pose proof (readVariablesFromRegistry_closes host CURRENT_USER userPath reg h) as [Hou Hcu].
  pose proof (readVariablesFromRegistry_closes host LOCAL_MACHINE systemPath reg h) as [Hos Hcs].
  assert (Hlocked : ∀ err, open_key host CURRENT_USER READ = Some err →
            ∃ err', result (readVariablesFromRegistry host CURRENT_USER userPath reg)
                    = inl err').
  { intros err Hopen. rewrite readVariablesFromRegistry_run, Hopen. eauto. }
  destruct (result (readVariablesFromRegistry host CURRENT_USER userPath reg))
    as [err|user] eqn:Hresult.
  - cbn [trace snd]. rewrite Hou, Hcu.
    destruct h; simpl; destruct (open_key host CURRENT_USER READ);
      destruct (open_key host LOCAL_MACHINE READ); split; done || lia.
  - assert (Huser : open_key host CURRENT_USER READ = None).
    { destruct (open_key host CURRENT_USER READ) as [err|] eqn:Hopen; [| done].
      destruct (Hlocked err eq_refl) as [err' Herr]. congruence. }
    rewrite Huser in Hcu.
    destruct isAdmin;
      [destruct (result (readVariablesFromRegistry host LOCAL_MACHINE systemPath reg)) |];
      cbn [trace snd]; unfold opens, closes in *;
      rewrite ?filter_app, ?length_app, ?Hou, ?Hcu, ?Hos, ?Hcs;
      destruct h; simpl; rewrite ?Huser;
      try destruct (open_key host LOCAL_MACHINE READ); split; done || lia.
Qed.

(** ** One registry call per entry *)

Lemma applyVariable_store_calls host key v reg :
  store_calls (trace (applyVariable host key v reg))
  = match store_call key v with Some call => [call] | None => [] end.
Proof.
  unfold store_call.
  destruct (String.eqb_spec (Operation v) "set") as [Hset|Hset].
  { rewrite (applyVariable_set _ _ _ _ Hset).
    by destruct (set_string_value host key (Name v) (Value v)). }
  destruct (String.eqb_spec (Operation v) "delete") as [Hdel|Hdel].
  { rewrite (applyVariable_delete _ _ _ _ Hdel).
    destruct (values reg key !! Name v); [| done].
    by destruct (delete_value host key (Name v)) as [err|]. }
  by rewrite applyVariable_unknown.
Qed.

(** X15: when the key opens, [applyVariables] makes exactly one registry
    value call for each "set" or "delete" entry, in list order and with
    the entry's name and value, and none for any other entry: nothing
    is retried after a failure, nothing is skipped, nothing is read. *)
Theorem applyVariables_one_call_per_entry host variables key path reg :
  open_key host key SET_VALUE = None →
  let t := trace (applyVariables host variables key path reg) in
  store_calls t = omap (store_call key) variables
  ∧ Forall (λ e, target e = Some key ∨ target e = None) t
  ∧ Forall (λ e, e ≠ RegEnumValues key ∧ ∀ name, e ≠ RegQueryValue key name) t.
Proof.
  intros Hopen t. subst t. rewrite (applyVariables_opened _ _ _ _ _ Hopen).
  cbn [trace snd]. split; [| split].
  - unfold store_calls. rewrite filter_cons_False by (by intros []).
    rewrite filter_app. rewrite (filter_cons_False _ (RegCloseKey key)) by (by intros []).
    rewrite filter_nil, app_nil_r. fold (store_calls (trace (forEach variables
      (applyVariable host key) reg))).
    revert reg. induction variables as [|v vs IH]; intros reg; [done |].
    rewrite forEach_cons. cbn [trace snd]. unfold store_calls in *.
    rewrite filter_app. fold (store_calls (trace (applyVariable host key v reg))).
    rewrite applyVariable_store_calls, IH.
    change (omap ?f (v :: vs))
      with (match f v with Some y => y :: omap f vs | None => omap f vs end).
    by destruct (store_call key v).
  - apply Forall_cons. split; [by left |]. apply Forall_app. split.
    + eapply Forall_impl; [apply loop_events |]. intros e He.
      destruct e; simpl in *; try done;
        try (apply bool_decide_eq_true in He as ->); auto.
    + by repeat constructor.
  - apply Forall_cons. split; [done |]. apply Forall_app. split.
    + eapply Forall_impl; [apply loop_events |]. intros e He. by destruct e.
    + by repeat constructor.
Qed.

Lemma applyVariables_one_call_per_entry_witness :
  store_calls (trace (applyVariables (Scenario.refusing "FOO" Scenario.mixed)
                        (UserVariables Scenario.mixed) CURRENT_USER userPath Scenario.blank))
  = [RegSetValue CURRENT_USER "FOO" "1"; RegDeleteValue CURRENT_USER "OLD";
     RegSetValue CURRENT_USER "FOO" "2"].
Proof.
  apply (applyVariables_one_call_per_entry (Scenario.refusing "FOO" Scenario.mixed)
           (UserVariables Scenario.mixed) CURRENT_USER userPath Scenario.blank).
  reflexivity.
Defined.

(** ** Relaunch and privilege *)

Lemma contains_spec s str : contains s str = true ↔ str ∈ s.
Proof.
  induction s as [|v s IH]; simpl.
  - split; [done | by intros ?%elem_of_nil].
  - rewrite elem_of_cons. destruct (String.eqb_spec v str) as [->|Hne].
    + split; auto.
    + rewrite IH. split; [auto | by intros [|]].
Qed.

(** X16: the arguments forwarded on "Relaunch as Admin" are the command
    line arguments of the process, in order, followed by the selected
    file when one is selected and it is not already among them.  So a
    selected file is always forwarded and never forwarded twice, and
    relaunching again from a process started with the forwarded
    arguments forwards the same arguments. *)
Theorem relaunchArgs_forward_selection program arguments selected :
  let args := relaunchArgs (program :: arguments) selected in
  arguments `prefix_of` args
  ∧ (selected ≠ "" → selected ∈ args)
  ∧ (selected = "" ∨ selected ∈ arguments → args = arguments)
  ∧ (selected ≠ "" → selected ∉ arguments → args = arguments ++ [selected])
  ∧ (∀ program', relaunchArgs (program' :: args) selected = args).
Proof.
  intros args. subst args. unfold relaunchArgs.
  change (drop 1 (program :: arguments)) with arguments.
  destruct (String.eqb_spec selected "") as [->|Hne]; cbn [negb andb].
  { repeat split; try done. }
  destruct (contains arguments selected) eqn:Hc; cbn [negb].
  - apply contains_spec in Hc as Hin. repeat split; try done.
    intros program'. change (drop 1 (program' :: ?l)) with l. by rewrite Hc.
  - assert (Hout : selected ∉ arguments).
    { intros Hin. apply contains_spec in Hin. congruence. }
    split; [by apply prefix_app_r |]. split; [intros _; set_solver |].
    split; [by intros [|] |]. split; [done |].
    intros program'. change (drop 1 (program' :: ?l)) with l.
    replace (contains (arguments ++ [selected]) selected) with true; [done |].
    symmetry. apply contains_spec. set_solver.
Qed.

Lemma relaunchArgs_forward_selection_witness :
  relaunchArgs ["svm.exe"] "C:\cfg\dev.yaml" = [] ++ ["C:\cfg\dev.yaml"]
  ∧ relaunchArgs ["svm.exe"; "C:\cfg\dev.yaml"] "C:\cfg\dev.yaml" = ["C:\cfg\dev.yaml"].
Proof.
  split.
  - destruct (relaunchArgs_forward_selection "svm.exe" [] "C:\cfg\dev.yaml")
      as (_ & _ & _ & Hadd & _).
    apply Hadd; [discriminate | apply not_elem_of_nil].
  - destruct (relaunchArgs_forward_selection "svm.exe" ["C:\cfg\dev.yaml"]
                "C:\cfg\dev.yaml") as (_ & _ & Hkeep & _).
    apply Hkeep. right. by left.
Defined.


Lemma applyEnvVars_standard_user host path reg :
  Forall (λ e, target e ≠ Some LOCAL_MACHINE) (trace (applyEnvVars host false path reg)).
Proof.
  rewrite applyEnvVars_run.
  destruct (String.eqb path ""); [by repeat constructor |].
  destruct (negb (isValidYAMLFile path)); [by repeat constructor |].
  destruct (read_file host path) as [err|yamlFile]; [by repeat constructor |].
  destruct (yaml_Unmarshal host yamlFile) as [err|config]; [by repeat constructor |].
  cbn [trace snd]. rewrite applyConfig_run. unfold notification, aborted, skipped.
  assert (Hloop : Forall (λ e, target e ≠ Some LOCAL_MACHINE)
            (trace (forEach (UserVariables config) (applyVariable host CURRENT_USER) reg))).
  { eapply Forall_impl; [apply loop_targets |]. intros e He Ht. by specialize (He _ Ht). }
  destruct (open_key host CURRENT_USER SET_VALUE) as [err|];
    [| destruct (0 <? length (SystemVariables config))%nat;
       [| destruct (send_message_timeout host)]];
    cbn [trace snd]; rewrite !Forall_app; repeat split; try done; by repeat constructor.
Qed.

(** X18: the session is elevated exactly when the IsUserAnAdmin call
    reports no error and returns a value other than zero, and it shows
    "Administrator" exactly then.  A failing call leaves the session
    not elevated and logs a warning.  In a session that is not
    elevated, whatever the reason, neither the apply action nor the
    export action makes a registry call on the system location. *)
Theorem startup_privilege platform osArgs :
  let session := startup platform osArgs in
  (isAdmin session = true
   ↔ ∃ ret, IsUserAnAdmin platform = (ret, None) ∧ ret ≠ 0%Z)
  ∧ (adminStatus session = "Administrator" ↔ isAdmin session = true)
  ∧ (∀ ret err, IsUserAnAdmin platform = (ret, Some err) →
       isAdmin session = false
       ∧ logged session
         = Some ("Warning: Could not determine admin status: " +:+ Error err))
  ∧ (isAdmin session = false →
     ∀ host path reg,
       Forall (λ e, target e ≠ Some LOCAL_MACHINE)
              (trace (applyEnvVars host (isAdmin session) path reg))
       ∧ Forall (λ e, target e ≠ Some LOCAL_MACHINE)
                (trace (exportButton host (isAdmin session) reg))).
Proof.
  intros session. subst session. unfold startup, isRunningAsAdmin.
  destruct (IsUserAnAdmin platform) as [ret [err|]]; cbn [isAdmin adminStatus logged].
  - split; [| split; [| split]].
    + split; [done | by intros (? & [= ] & _)].
    + done.
    + by intros ? ? [= _ <-].
    + intros _ host path reg. split; [apply applyEnvVars_standard_user |].
      eapply Forall_impl; [apply exportButton_calls |]. intros e (_ & _ & He). by apply He.
  - split; [| split; [| split]].
    + destruct (Z.eqb_spec ret 0) as [->|Hne]; simpl.
      * split; [done | by intros (? & [= <-] & ?)].
      * split; [eauto | done].
    + by destruct (negb (ret =? 0)%Z).
    + by intros ? ? [= ].
    + intros -> host path reg. split; [apply applyEnvVars_standard_user |].
      eapply Forall_impl; [apply exportButton_calls |]. intros e (_ & _ & He). by apply He.
Qed.

Lemma startup_privilege_witness :
  isAdmin (startup Desk.unknown ["svm.exe"]) = false
  ∧ isAdmin (startup Desk.elevated ["svm.exe"]) = true.
Proof.
  destruct (startup_privilege Desk.unknown ["svm.exe"]) as (_ & _ & Hfail & _).
  destruct (startup_privilege Desk.elevated ["svm.exe"]) as (Hok & _).
  split.
  - apply (Hfail 1%Z Scenario.accessDenied). reflexivity.
  - apply Hok. exists 1%Z. split; [reflexivity | discriminate].
Defined.

(** X19: a press of "Relaunch as Admin" ends in exactly one of two
    ways: the application quits, which happens exactly when the
    executable was found and ShellExecuteW returned more than 32, or an
    error is shown and it keeps running.  A launch is always made with
    the verb "runas", the forwarded arguments joined by single spaces,
    the current directory and a normal window; when the executable
    cannot be found nothing is launched. *)
Theorem runAsAdminButton_outcome platform program arguments selected :
  let press := runAsAdminButton platform (program :: arguments) selected in
  (quits press = true ↔ shown press = None)
  ∧ (quits press = true
     ↔ ∃ call, launched press = Some call ∧ (32 < (ShellExecuteW platform call).1)%Z)
  ∧ (∀ call, launched press = Some call →
       verb call = "runas"
       ∧ parameters call
         = strings_Join (relaunchArgs (program :: arguments) selected) " "
       ∧ directory call = os_Getwd platform
       ∧ show call = SW_NORMAL
       ∧ os_Executable platform = inr (file call))
  ∧ (∀ err, os_Executable platform = inl err →
       launched press = None ∧ quits press = false).
Proof.
  intros press. subst press. unfold runAsAdminButton, elevateAsAdmin. cbv zeta.
  destruct (os_Executable platform) as [err|exePath].
  { cbn. repeat split; try done. by intros (? & [= ] & _). }
  destruct (ShellExecuteW platform _) as [r err] eqn:Hcall.
  destruct (Z.leb_spec r 32) as [Hle|Hgt]; cbn [launched shown quits].
  - repeat split; try done; try (by simplify_eq).
    intros (c & [= <-] & Hr). rewrite Hcall in Hr. simpl in Hr. lia.
  - repeat split; try done; try (by simplify_eq).
    intros _. eexists. split; [reflexivity |]. by rewrite Hcall.
Qed.

Lemma runAsAdminButton_outcome_witness :
  quits (runAsAdminButton Desk.elevated ["svm.exe"] "C:\cfg\dev.yaml") = true
  ∧ shown (runAsAdminButton Desk.elevated ["svm.exe"] "C:\cfg\dev.yaml") = None.
Proof.
  destruct (runAsAdminButton_outcome Desk.elevated "svm.exe" [] "C:\cfg\dev.yaml")
    as (Hshown & Hquits & _).
  assert (Hq : quits (runAsAdminButton Desk.elevated ["svm.exe"] "C:\cfg\dev.yaml") = true).
  { apply Hquits. eexists. split; [reflexivity |]. reflexivity. }
  split; [exact Hq | by apply Hshown].
Defined.

(** ** Paths *)

(** X20: ensuring the extension twice is ensuring it once: a path that
    went through the export handler's rewrite is left alone by it. *)
Theorem ensureYAMLExtension_idempotent savePath :
  ensureYAMLExtension (ensureYAMLExtension savePath) = ensureYAMLExtension savePath.
Proof.
  pose proof (ensureYAMLExtension_valid savePath) as Hvalid.
  rewrite isValidYAMLFile_HasSuffix in Hvalid.
  unfold ensureYAMLExtension at 1. rewrite <- negb_orb. by rewrite Hvalid.
Qed.

Lemma ext_walk_last_element todo sep rest visited :
  IsPathSeparator sep = true →
  Forall (λ c, IsPathSeparator c = false) todo →
  ext_walk (todo ++ sep :: rest) visited = ext_walk todo visited.
Proof.
  intros Hsep Htodo. revert visited.
  induction Htodo as [|c todo Hc _ IH]; intros visited; simpl.
  - by rewrite Hsep.
  - rewrite Hc. destruct (Ascii.eqb c "."); [done | apply IH].
Qed.

(** X21: only the last element of the path decides: for a name without
    a separator, a path made of any directory part, a separator ('\' or
    '/') and the name is a valid YAML file exactly when the name alone
    is.  A dot in a directory name gives no extension. *)
Theorem isValidYAMLFile_last_element dir sep name :
  IsPathSeparator sep = true →
  no_separator name →
  Ext (dir +:+ String sep name) = Ext name
  ∧ isValidYAMLFile (dir +:+ String sep name) = isValidYAMLFile name.
Proof.
  intros Hsep Hname.
  assert (HExt : Ext (dir +:+ String sep name) = Ext name).
  { unfold Ext. rewrite bytes_app. change (bytes (String sep name)) with (sep :: bytes name).
    rewrite rev_app_distr. simpl rev. rewrite <- app_assoc. simpl app.
    rewrite ext_walk_last_element; [done | done |]. by apply Forall_rev. }
  split; [done |]. unfold isValidYAMLFile. by rewrite HExt.
Qed.

Lemma isValidYAMLFile_last_element_witness :
  isValidYAMLFile ("C:\conf.yaml" +:+ String "\" "notes") = isValidYAMLFile "notes".
Proof.
  apply (isValidYAMLFile_last_element "C:\conf.yaml" "\" "notes").
  - reflexivity.
  - repeat constructor.
Defined.

(** ** The order of the calls of an apply run *)

Section Splitting.

Context (P : Event → Prop).

Lemma split_after (A B pre post : list Event) e :
  Forall (λ x, ¬ P x) A → P e →
  pre ++ e :: post = A ++ B →
  ∃ middle, B = middle ++ e :: post.
Proof.
  intros HA He. revert pre. induction HA as [|a A Ha _ IH]; intros pre Heq.
  - by exists pre.
  - destruct pre as [|p pre]; simpl in Heq; injection Heq as -> Heq; [done |].
    by apply (IH pre).
Qed.

Lemma split_unique (A C pre post : list Event) e x :
  Forall (λ y, ¬ P y) A → Forall (λ y, ¬ P y) C → P e →
  pre ++ e :: post = A ++ x :: C →
  pre = A ∧ e = x ∧ post = C.
Proof.
  intros HA HC He. revert pre. induction HA as [|a A Ha _ IH]; intros pre Heq.
  - destruct pre as [|p pre]; simpl in Heq; injection Heq as -> Heq; [done |].
    exfalso. rewrite Forall_forall in HC. apply (HC e); [| done].
    rewrite <- Heq. apply elem_of_app. right. by left.
  - destruct pre as [|p pre]; simpl in Heq; injection Heq as -> Heq; [done |].
    destruct (IH pre Heq) as (-> & -> & ->). done.
Qed.

End Splitting.

(** An apply run in three phases: the user scope, the system scope, and
    what follows the broadcast call, if it is made. *)
Lemma applyEnvVars_phases host isAdmin path reg :
  ∃ user system after,
    (trace (applyEnvVars host isAdmin path reg) = user ++ system ++ after)
    ∧ Forall (λ e, target e ≠ Some LOCAL_MACHINE ∧ is_broadcast e = false) user
    ∧ Forall (λ e, target e ≠ Some CURRENT_USER ∧ is_broadcast e = false) system
    ∧ (after = []
       ∨ ∃ rest, after = SendMessageTimeoutW HWND_BROADCAST WM_SETTINGCHANGE
                            "Environment" 5000 :: rest
                 ∧ Forall (λ e, target e = None ∧ is_broadcast e = false) rest).
Proof.
  assert (Huser : ∀ vs r,
            Forall (λ e, target e ≠ Some LOCAL_MACHINE ∧ is_broadcast e = false)
              (trace (forEach vs (applyVariable host CURRENT_USER) r))).
  { intros vs r. eapply Forall_impl; [apply loop_events |]. intros e He.
    apply entry_event_quiet in He as (? & _ & Ht). split; [| done].
    intros Hlm. by specialize (Ht _ Hlm). }
  assert (Hsystem : ∀ vs r,
            Forall (λ e, target e ≠ Some CURRENT_USER ∧ is_broadcast e = false)
              (trace (forEach vs (applyVariable host LOCAL_MACHINE) r))).
  { intros vs r. eapply Forall_impl; [apply loop_events |]. intros e He.
    apply entry_event_quiet in He as (? & _ & Ht). split; [| done].
    intros Hcu. by specialize (Ht _ Hcu). }
  rewrite applyEnvVars_run.
  destruct (String.eqb path "").
  { eexists _, [], []. rewrite !app_nil_r. repeat split; [by repeat constructor.. | by left]. }
  destruct (negb (isValidYAMLFile path)).
  { eexists _, [], []. rewrite !app_nil_r. repeat split; [by repeat constructor.. | by left]. }
  destruct (read_file host path) as [err|yamlFile].
  { eexists _, [], []. rewrite !app_nil_r. repeat split; [by repeat constructor.. | by left]. }
  destruct (yaml_Unmarshal host yamlFile) as [err|config].
  { eexists _, [], []. rewrite !app_nil_r. repeat split; [by repeat constructor.. | by left]. }
  cbn [trace snd]. rewrite applyConfig_run. unfold notification, aborted, skipped.
  destruct (open_key host CURRENT_USER SET_VALUE) as [err|].
  { eexists _, [], []. rewrite !app_nil_r. repeat split; [by repeat constructor.. | by left]. }
  destruct isAdmin; [destruct (open_key host LOCAL_MACHINE SET_VALUE) as [err|] |
                     destruct (0 <? length (SystemVariables config))%nat];
    cbn [trace snd].
  - exists ([SetText "Applying variables... Please wait."; Refresh; ReadFile path]
            ++ [Stdout ApplyingUser; RegOpenKey CURRENT_USER userPath SET_VALUE]
            ++ trace (forEach (UserVariables config) (applyVariable host CURRENT_USER) reg)
            ++ [RegCloseKey CURRENT_USER]).
    eexists _, []. rewrite app_nil_r. split; [by rewrite <- !app_assoc |].
    split; [| split; [| by left]].
    + rewrite !Forall_app. repeat split; try apply Huser; by repeat constructor.
    + by repeat constructor.
  - exists ([SetText "Applying variables... Please wait."; Refresh; ReadFile path]
            ++ [Stdout ApplyingUser; RegOpenKey CURRENT_USER userPath SET_VALUE]
            ++ trace (forEach (UserVariables config) (applyVariable host CURRENT_USER) reg)
            ++ [RegCloseKey CURRENT_USER]).
    exists ([Stdout ApplyingSystem; RegOpenKey LOCAL_MACHINE systemPath SET_VALUE]
            ++ trace (forEach (SystemVariables config) (applyVariable host LOCAL_MACHINE)
                        (store (forEach (UserVariables config)
                                  (applyVariable host CURRENT_USER) reg)))
            ++ [RegCloseKey LOCAL_MACHINE; Stdout Broadcasting]).
    eexists. split; [by rewrite <- !app_assoc |].
    split; [| split].
    + rewrite !Forall_app. repeat split; try apply Huser; by repeat constructor.
    + rewrite !Forall_app. repeat split; try apply Hsystem; by repeat constructor.
    + right. eexists. split; [reflexivity |].
      destruct (send_message_timeout host); by repeat constructor.
  - exists ([SetText "Applying variables... Please wait."; Refresh; ReadFile path]
            ++ [Stdout ApplyingUser; RegOpenKey CURRENT_USER userPath SET_VALUE]
            ++ trace (forEach (UserVariables config) (applyVariable host CURRENT_USER) reg)
            ++ [RegCloseKey CURRENT_USER]).
    eexists _, []. rewrite app_nil_r. split; [by rewrite <- !app_assoc |].
    split; [| split; [| by left]].
    + rewrite !Forall_app. repeat split; try apply Huser; by repeat constructor.
    + by repeat constructor.
  - exists ([SetText "Applying variables... Please wait."; Refresh; ReadFile path]
            ++ [Stdout ApplyingUser; RegOpenKey CURRENT_USER userPath SET_VALUE]
            ++ trace (forEach (UserVariables config) (applyVariable host CURRENT_USER) reg)
            ++ [RegCloseKey CURRENT_USER]).
    exists [Stdout Broadcasting]. eexists. split; [by rewrite <- !app_assoc |].
    split; [| split].
    + rewrite !Forall_app. repeat split; try apply Huser; by repeat constructor.
    + by repeat constructor.
    + right. eexists. split; [reflexivity |].
      destruct (send_message_timeout host); by repeat constructor.
Qed.

(** X22: in an apply run the broadcast comes after every registry call.
    Wherever the run makes a SendMessageTimeoutW call, it is the call
    to all top-level windows (HWND_BROADCAST) with WM_SETTINGCHANGE,
    "Environment" and a timeout of 5000 ms, and nothing after it is a
    registry call or a second broadcast. *)
Theorem applyEnvVars_broadcast_last host isAdmin path reg before e after :
  trace (applyEnvVars host isAdmin path reg) = before ++ e :: after →
  is_broadcast e = true →
  e = SendMessageTimeoutW HWND_BROADCAST WM_SETTINGCHANGE "Environment" 5000
  ∧ Forall (λ e', target e' = None ∧ is_broadcast e' = false) after
  ∧ Forall (λ e', is_broadcast e' = false) before.
Proof.
  intros Hsplit He.
  destruct (applyEnvVars_phases host isAdmin path reg)
    as (user & system & tail & Htrace & Huser & Hsystem & Htail).
  rewrite Htrace in Hsplit. symmetry in Hsplit.
  assert (Hquiet : Forall (λ y, ¬ is_broadcast y = true) (user ++ system)).
  { apply Forall_app. split; (eapply Forall_impl; [eassumption |]);
      intros y [_ Hy]; congruence. }
  destruct Htail as [-> | (rest & -> & Hrest)].
  - exfalso. rewrite app_nil_r in Hsplit. rewrite <- Hsplit in Hquiet.
    apply Forall_app in Hquiet as [_ Hquiet]. apply Forall_cons in Hquiet as [Hquiet _].
    done.
  - rewrite app_assoc in Hsplit.
    destruct (split_unique (λ y, is_broadcast y = true) _ _ _ _ _ _ Hquiet
                ltac:(eapply Forall_impl; [exact Hrest |]; intros y [_ Hy]; congruence)
                He Hsplit) as (-> & -> & ->).
    split; [done |]. split; [done |].
    eapply Forall_impl; [exact Hquiet |]. intros y Hy. by apply not_true_is_false.
Qed.

Lemma applyEnvVars_broadcast_last_witness :
  Forall (λ e', target e' = None ∧ is_broadcast e' = false)
    [SetText "Environment variables applied successfully. Some applications may need to be restarted.";
     success; Refresh].
Proof.
  eapply (applyEnvVars_broadcast_last (Scenario.healthy Scenario.systemOnly) true
            "cfg.yaml" Scenario.blank
            [SetText "Applying variables... Please wait."; Refresh; ReadFile "cfg.yaml";
             Stdout ApplyingUser; RegOpenKey CURRENT_USER userPath SET_VALUE;
             RegCloseKey CURRENT_USER; Stdout ApplyingSystem;
             RegOpenKey LOCAL_MACHINE systemPath SET_VALUE;
             RegSetValue LOCAL_MACHINE "JAVA_HOME" "C:\jdk-17";
             Stdout (SetOk "JAVA_HOME" "C:\jdk-17"); RegCloseKey LOCAL_MACHINE;
             Stdout Broadcasting]); reflexivity.
Defined.

(** X23: in an apply run the user scope is finished before the system
    scope is touched: after a registry call on the system location the
    run makes no registry call on the user location. *)
Theorem applyEnvVars_user_scope_first host isAdmin path reg before e after :
  trace (applyEnvVars host isAdmin path reg) = before ++ e :: after →
  target e = Some LOCAL_MACHINE →
  Forall (λ e', target e' ≠ Some CURRENT_USER) after.
Proof.
  intros Hsplit He.
  destruct (applyEnvVars_phases host isAdmin path reg)
    as (user & system & tail & Htrace & Huser & Hsystem & Htail).
  rewrite Htrace in Hsplit. symmetry in Hsplit.
  destruct (split_after (λ y, target y = Some LOCAL_MACHINE) user (system ++ tail)
              before after e) as [middle Hmiddle]; [| done | done |].
  { eapply Forall_impl; [exact Huser |]. by intros y [Hy _]. }
  assert (Hrest : Forall (λ e', target e' ≠ Some CURRENT_USER) (system ++ tail)).
  { apply Forall_app. split.
    - eapply Forall_impl; [exact Hsystem |]. by intros y [Hy _].
    - destruct Htail as [-> | (rest & -> & Hrest)]; [constructor |].
      apply Forall_cons. split; [done |].
      eapply Forall_impl; [exact Hrest |]. intros y [Hy _]. by rewrite Hy. }
  rewrite Hmiddle in Hrest. apply Forall_app in Hrest as [_ Hrest].
  by apply Forall_cons in Hrest as [_ Hrest].
Qed.

Lemma applyEnvVars_user_scope_first_witness :
  Forall (λ e', target e' ≠ Some CURRENT_USER)
    ([RegSetValue LOCAL_MACHINE "JAVA_HOME" "C:\jdk-17";
      Stdout (SetOk "JAVA_HOME" "C:\jdk-17"); RegCloseKey LOCAL_MACHINE]
     ++ notification (Scenario.healthy Scenario.systemOnly)).
Proof.
  eapply (applyEnvVars_user_scope_first (Scenario.healthy Scenario.systemOnly) true
            "cfg.yaml" Scenario.blank
            [SetText "Applying variables... Please wait."; Refresh; ReadFile "cfg.yaml";
             Stdout ApplyingUser; RegOpenKey CURRENT_USER userPath SET_VALUE;
             RegCloseKey CURRENT_USER; Stdout ApplyingSystem]
            (RegOpenKey LOCAL_MACHINE systemPath SET_VALUE)); reflexivity.
Defined.
